(** * Consolidation and identity resolution of the Kiro usage reports

    A shallow embedding of
    - [consolidate_kiro_reports_fixed.py] (class [KiroReportConsolidator]),
    - [kiro_tracker_with_iam.py] (method [consolidate_region_data]),
    - [iam_identity_center_mapper.py] (class [IAMIdentityCenterMapper]),
    with the properties of the specification proved about it.

    Conventions of the model.
    - A Python [str] is a [string] of 8-bit characters; file names, object
      keys and user identifiers are taken to be ASCII, so that [\d] is
      [0-9] and a slice [s[:8]] is the first eight characters.  The order on
      strings is the byte-wise lexicographic one, which on UTF-8 text is
      Python's code-point order.
    - A Python exception is a value of [exn]; a call that may raise returns
      a [py_result].
    - The services the code talks to (object store, identity directory, the
      CSV reader, the clock, the child process) are explicit arguments. *)

From Stdlib Require Import Ascii String QArith Lqa Sorted Permutation.
From stdpp Require Import base option list strings gmap.

Local Open Scope string_scope.
Local Open Scope list_scope.
Local Open Scope nat_scope.

(** ** Exceptions *)

Inductive exn : Type :=
| ValueError
| KeyError
| TypeError
| ServiceError.   (* botocore / OS level failures *)

Inductive py_result (A : Type) : Type :=
| Returns (a : A)
| Raises (e : exn).
Arguments Returns {A} a.
Arguments Raises {A} e.

(** ** Characters and strings *)

Definition in_range (lo hi c : ascii) : bool :=
  (nat_of_ascii lo <=? nat_of_ascii c) && (nat_of_ascii c <=? nat_of_ascii hi).

(** [\d] on ASCII text. *)
Definition is_digit (c : ascii) : bool := in_range "0" "9" c.

Definition digit_value (c : ascii) : nat := nat_of_ascii c - 48.

Definition is_char (x c : ascii) : bool := Ascii.eqb x c.

Fixpoint all_chars (p : ascii -> bool) (s : string) : bool :=
  match s with
  | EmptyString => true
  | String c s' => p c && all_chars p s'
  end.

(** [s[:n]] *)
Definition slice_to (n : nat) (s : string) : string := substring 0 n s.

(** [s.endswith(suffix)] *)
Definition endswith (s suffix : string) : bool :=
  let n := String.length s in
  let m := String.length suffix in
  (m <=? n) && String.eqb (substring (n - m) m s) suffix.

(** [s.split(sep)] for a one-character separator: never an empty list. *)
Fixpoint split (sep : ascii) (s : string) : list string :=
  match s with
  | EmptyString => [EmptyString]
  | String c s' =>
      if Ascii.eqb c sep then EmptyString :: split sep s'
      else match split sep s' with
           | h :: t => String c h :: t
           | [] => [String c EmptyString]
           end
  end.

(** [key.split('/')[-1]] *)
Definition basename (key : string) : string := List.last (split "/" key) EmptyString.

(** ** Naive datetimes

    [datetime.datetime] without time zone.  Python compares two of them field
    by field, most significant first. *)

Record datetime : Type := mk_datetime {
  year : nat; month : nat; day : nat;
  hour : nat; minute : nat; second : nat; microsecond : nat
}.

Definition dt_fields (d : datetime) : list nat :=
  [year d; month d; day d; hour d; minute d; second d; microsecond d].

Fixpoint lex_ltb (a b : list nat) : bool :=
  match a, b with
  | x :: a', y :: b' => (x <? y) || ((x =? y) && lex_ltb a' b')
  | [], _ :: _ => true
  | _, [] => false
  end.

(** [a < b] on datetimes *)
Definition dt_ltb (a b : datetime) : bool := lex_ltb (dt_fields a) (dt_fields b).

Definition is_leap (y : nat) : bool :=
  (y mod 4 =? 0) && (negb (y mod 100 =? 0) || (y mod 400 =? 0)).

Definition days_in_month (y m : nat) : nat :=
  match m with
  | 1 | 3 | 5 | 7 | 8 | 10 | 12 => 31
  | 4 | 6 | 9 | 11 => 30
  | 2 => if is_leap y then 29 else 28
  | _ => 0
  end.

(** ** [datetime.strptime(s, '%Y%m%d')]

    The standard library compiles the format into the regular expression
    [(?P<Y>\d\d\d\d)(?P<m>1[0-2]|0[1-9]|[1-9])(?P<d>3[0-1]|[1-2]\d|0[1-9]|[1-9]| [1-9])],
    matches it against a prefix of the input with backtracking, refuses a
    match that leaves input unconverted, and builds the date.  Each
    directive is modelled as the list of its matches, in the order the
    backtracking tries them, each with the input that remains. *)

(** [int(group)]: leading blanks are skipped, the digits read in base ten *)
Fixpoint decimal_from (acc : nat) (s : string) : nat :=
  match s with
  | EmptyString => acc
  | String c s' => decimal_from (10 * acc + digit_value c) s'
  end.

Fixpoint py_int (s : string) : nat :=
  match s with
  | String c s' => if is_char " " c then py_int s' else decimal_from 0 s
  | EmptyString => 0
  end.

(** an alternative of two character classes: the text matched and the rest *)
Definition alt2 (p1 p2 : ascii -> bool) (s : string) : list (string * string) :=
  match s with
  | String a (String b r) =>
      if p1 a && p2 b then [(String a (String b EmptyString), r)] else []
  | _ => []
  end.

Definition alt1 (p : ascii -> bool) (s : string) : list (string * string) :=
  match s with
  | String a r => if p a then [(String a EmptyString, r)] else []
  | _ => []
  end.

Definition directive_m (s : string) : list (string * string) :=
  alt2 (is_char "1") (in_range "0" "2") s
  ++ alt2 (is_char "0") (in_range "1" "9") s
  ++ alt1 (in_range "1" "9") s.

Definition directive_d (s : string) : list (string * string) :=
  alt2 (is_char "3") (in_range "0" "1") s
  ++ alt2 (in_range "1" "2") is_digit s
  ++ alt2 (is_char "0") (in_range "1" "9") s
  ++ alt1 (in_range "1" "9") s
  ++ alt2 (is_char " ") (in_range "1" "9") s.

Definition directive_Y (s : string) : list (string * string) :=
  match s with
  | String a (String b (String c (String d r))) =>
      if is_digit a && is_digit b && is_digit c && is_digit d
      then [(String a (String b (String c (String d EmptyString))), r)]
      else []
  | _ => []
  end.

(** The matches of [%m%d], first match first. *)
Definition regex_md (s : string) : list (string * string * string) :=
  '(m, r1) ← directive_m s;
  '(d, r2) ← directive_d r1;
  [(m, d, r2)].

(** The matches of the whole expression, first match first. *)
Definition regex_Ymd (s : string) : list (string * string * string * string) :=
  '(y, r0) ← directive_Y s;
  '(m, d, r2) ← regex_md r0;
  [(y, m, d, r2)].

Definition MAXYEAR : nat := 99 * 101.

(** The check made by [datetime.date(y, m, d)]; MINYEAR is 1. *)
Definition valid_date (y m d : nat) : bool :=
  (1 <=? y) && (y <=? MAXYEAR) && (1 <=? m) && (m <=? 12)
  && (1 <=? d) && (d <=? days_in_month y m).

Definition strptime_Ymd (s : string) : py_result datetime :=
  match regex_Ymd s with
  | [] => Raises ValueError                         (* does not match format *)
  | (y, m, d, rest) :: _ =>
      match rest with
      | EmptyString =>
          if valid_date (py_int y) (py_int m) (py_int d)
          then Returns (mk_datetime (py_int y) (py_int m) (py_int d) 0 0 0 0)
          else Raises ValueError                    (* day is out of range *)
      | String _ _ => Raises ValueError             (* unconverted data remains *)
      end
  end.

(** ** [re.search(r'_(\d{12})_', filename)] *)

(** [n] digits at the head of [s], and what follows them *)
Fixpoint take_digits (n : nat) (s : string) : option (string * string) :=
  match n with
  | 0 => Some (EmptyString, s)
  | S n' =>
      match s with
      | String c s' =>
          if is_digit c
          then match take_digits n' s' with
               | Some (t, r) => Some (String c t, r)
               | None => None
               end
          else None
      | EmptyString => None
      end
  end.

(** the pattern matched at the very start of [s]; the result is group 1 *)
Definition match_token_here (s : string) : option string :=
  match s with
  | String c s1 =>
      if is_char "_" c
      then match take_digits 12 s1 with
           | Some (tok, String c' _) => if is_char "_" c' then Some tok else None
           | _ => None
           end
      else None
  | EmptyString => None
  end.

(** the leftmost position at which the pattern matches *)
Fixpoint re_search_token (s : string) : option string :=
  match match_token_here s with
  | Some tok => Some tok
  | None =>
      match s with
      | EmptyString => None
      | String _ s' => re_search_token s'
      end
  end.

(** ** [KiroReportConsolidator.extract_date_from_filename] *)

Definition extract_date_from_filename (filename : string) : py_result datetime :=
  match re_search_token filename with
  | Some tok => strptime_Ymd (slice_to 8 tok)
  | None => Raises ValueError
  end.

(** ** Sorting

    [sorted(xs, key=...)] and [DataFrame.sort_values([...])] on several
    columns are stable sorts.  A stable sort by a strict order [lt] is
    determined by its input; it is written here as the insertion of each
    element before the first one that is not smaller. *)

Fixpoint insert_by {A : Type} (lt : A -> A -> bool) (x : A) (l : list A) : list A :=
  match l with
  | [] => [x]
  | y :: l' => if lt y x then y :: insert_by lt x l' else x :: l
  end.

Definition stable_sort {A : Type} (lt : A -> A -> bool) (l : list A) : list A :=
  foldr (insert_by lt) [] l.

(** [a] may stand before [b]: [b] is not smaller *)
Definition not_after {A : Type} (lt : A -> A -> bool) (a b : A) : Prop := lt b a = false.

(** ** The object store

    Modelled from the spec: the object storage capability of section 6,
    [list(bucket, prefix) -> objects{key, size, last_modified}] and
    [get(bucket, key) -> raw bytes] (boto3's S3 client is not part of the
    repository).  A call either answers or raises; a listing answers with
    the objects whose key starts with the prefix, and leaves [Contents] out
    when there are none. *)

Record S3Object : Type := mk_object {
  Key : string;
  Size : nat;
  LastModified : datetime
}.

Record S3 : Type := mk_s3 {
  s3_objects : list S3Object;            (* the objects of the bucket *)
  s3_list_ok : bool;                     (* does the listing call answer *)
  s3_body : string -> option string      (* content by key; [None]: the call raises *)
}.

Record ListObjectsResponse : Type := mk_list_response {
  Contents : option (list S3Object)
}.

Definition list_objects_v2 (s3 : S3) (prefix : string) : py_result ListObjectsResponse :=
  if s3_list_ok s3 then
    match List.filter (fun o => String.prefix prefix (Key o)) (s3_objects s3) with
    | [] => Returns (mk_list_response None)
    | objs => Returns (mk_list_response (Some objs))
    end
  else Raises ServiceError.

Definition get_object (s3 : S3) (key : string) : py_result string :=
  match s3_body s3 key with
  | Some content => Returns content
  | None => Raises ServiceError
  end.

(** ** [KiroReportConsolidator.list_csv_files] *)

(** the dictionaries appended to [csv_files] *)
Record SourceFile : Type := mk_source_file {
  file_key : string;
  file_date : datetime;
  file_size : nat;
  file_last_modified : datetime
}.

(** [start_date and file_date < start_date]: a datetime is always true *)
Definition before_start (start_date : option datetime) (file_date : datetime) : bool :=
  match start_date with
  | Some sd => dt_ltb file_date sd
  | None => false
  end.

(** [end_date and file_date > end_date] *)
Definition after_end (end_date : option datetime) (file_date : datetime) : bool :=
  match end_date with
  | Some ed => dt_ltb ed file_date
  | None => false
  end.

(** One turn of the loop over [Contents]: the entry to append, if any.
    Only [ValueError] is caught by the inner handler. *)
Definition catalog_entry (start_date end_date : option datetime) (obj : S3Object)
  : py_result (option SourceFile) :=
  if endswith (Key obj) ".csv" then
    match extract_date_from_filename (basename (Key obj)) with
    | Returns d =>
        if before_start start_date d then Returns None
        else if after_end end_date d then Returns None
        else Returns (Some (mk_source_file (Key obj) d (Size obj) (LastModified obj)))
    | Raises ValueError => Returns None
    | Raises e => Raises e
    end
  else Returns None.

Fixpoint catalog_loop (start_date end_date : option datetime)
    (objs : list S3Object) (csv_files : list SourceFile) : py_result (list SourceFile) :=
  match objs with
  | [] => Returns csv_files
  | obj :: rest =>
      match catalog_entry start_date end_date obj with
      | Returns (Some f) => catalog_loop start_date end_date rest (csv_files ++ [f])
      | Returns None => catalog_loop start_date end_date rest csv_files
      | Raises e => Raises e
      end
  end.

Definition list_csv_files (s3 : S3) (base_prefix : string)
    (start_date end_date : option datetime) : list SourceFile :=
  match list_objects_v2 s3 base_prefix with
  | Returns response =>
      match catalog_loop start_date end_date (default [] (Contents response)) [] with
      | Returns csv_files =>
          stable_sort (fun a b => dt_ltb (file_date a) (file_date b)) csv_files
      | Raises _ => []
      end
  | Raises _ => []
  end.

(** ** Records

    A cell of a data frame read from text is a string, or missing (NaN).
    The reports carry the columns [UserId] and [Date] (section 6 of the
    specification); the other columns are carried along by name. *)

Definition cell : Type := option string.

Record CsvRow : Type := mk_row {
  row_UserId : cell;
  row_Date : cell;
  row_fields : list (string * cell)
}.

Record ActivityRecord : Type := mk_record {
  UserId : cell;
  Date : cell;
  metric_fields : list (string * cell);
  ReportDate : string
}.

(** ** [file_date.strftime('%Y-%m-%d')] *)

Definition digit_char (n : nat) : ascii := ascii_of_nat (48 + n mod 10).

Definition pad2 (n : nat) : string :=
  String (digit_char (n / 10)) (String (digit_char n) EmptyString).

Definition pad4 (n : nat) : string :=
  String (digit_char (n / 1000)) (String (digit_char (n / 100)) (pad2 n)).

Definition strftime_Ymd (d : datetime) : string :=
  pad4 (year d) +:+ "-" +:+ pad2 (month d) +:+ "-" +:+ pad2 (day d).

(** ** [KiroReportConsolidator.download_and_parse_csv] *)

(** [df['ReportDate'] = value]: the column is set, replacing one read from
    the file *)
Definition set_ReportDate (value : string) (r : CsvRow) : ActivityRecord :=
  mk_record (row_UserId r) (row_Date r)
    (List.filter (fun f => negb (String.eqb (fst f) "ReportDate")) (row_fields r))
    value.

Section Consolidator.

(** [pd.read_csv(io.BytesIO(content))]: the rows, or an exception *)
Variable read_csv : string -> py_result (list CsvRow).

Definition download_and_parse_csv (s3 : S3) (key : string) : list ActivityRecord :=
  match get_object s3 key with
  | Returns content =>
      match read_csv content with
      | Returns df =>
          match extract_date_from_filename (basename key) with
          | Returns d => map (set_ReportDate (strftime_Ymd d)) df
          | Raises _ => []
          end
      | Raises _ => []
      end
  | Raises _ => []
  end.

(** ** [KiroReportConsolidator.consolidate_reports] *)

Definition dedup_key (r : ActivityRecord) : cell * cell := (UserId r, Date r).

Definition same_key (a b : ActivityRecord) : bool :=
  bool_decide (dedup_key a = dedup_key b).

(** [drop_duplicates(subset=['UserId', 'Date'], keep='last')]: a row stays
    when no later row has its key; the rows that stay keep their order *)
Fixpoint drop_duplicates_last (rows : list ActivityRecord) : list ActivityRecord :=
  match rows with
  | [] => []
  | r :: rest =>
      if existsb (same_key r) rest then drop_duplicates_last rest
      else r :: drop_duplicates_last rest
  end.

(** a missing value sorts last *)
Definition cell_ltb (a b : cell) : bool :=
  match a, b with
  | Some x, Some y => String.ltb x y
  | Some _, None => true
  | None, _ => false
  end.

(** the order of [sort_values(['ReportDate', 'UserId'])] *)
Definition record_ltb (a b : ActivityRecord) : bool :=
  String.ltb (ReportDate a) (ReportDate b)
  || (String.eqb (ReportDate a) (ReportDate b) && cell_ltb (UserId a) (UserId b)).

Definition sort_values (rows : list ActivityRecord) : list ActivityRecord :=
  stable_sort record_ltb rows.

(** lines 119-136: concatenation, removal of duplicates, sort *)
Definition consolidate (all_dataframes : list (list ActivityRecord)) : list ActivityRecord :=
  sort_values (drop_duplicates_last (concat all_dataframes)).

(** [df.empty] *)
Definition df_empty {A : Type} (df : list A) : bool :=
  match df with [] => true | _ => false end.

(** the loop of lines 103-113: the batches that are not empty *)
Definition download_all (s3 : S3) (csv_files : list SourceFile) : list (list ActivityRecord) :=
  List.filter (fun df => negb (df_empty df))
    (map (fun f => download_and_parse_csv s3 (file_key f)) csv_files).

Definition consolidate_reports (s3 : S3) (base_prefix : string)
    (start_date end_date : option datetime) : list ActivityRecord :=
  match list_csv_files s3 base_prefix start_date end_date with
  | [] => []
  | csv_files =>
      match download_all s3 csv_files with
      | [] => []
      | all_dataframes => consolidate all_dataframes
      end
  end.

End Consolidator.

(** ** Region aggregation: [KiroTrackerWithIAM.consolidate_region_data] *)

Definition S3_USER_ACTIVITY_REPORT_PREFIX : string := "daily-report/AWSLogs".
Definition SUBSCRIPTION_SERVICE_NAME : string := "QDeveloper".

Definition SUPPORTED_REGIONS : list (string * string) :=
  [ ("us-east-1", "US East (N. Virginia)");
    ("us-west-2", "US West (Oregon)");
    ("eu-central-1", "Europe (Frankfurt)");
    ("ap-northeast-1", "Asia Pacific (Tokyo)");
    ("ap-northeast-2", "Asia Pacific (Seoul)");
    ("ap-southeast-1", "Asia Pacific (Singapore)");
    ("ap-southeast-2", "Asia Pacific (Sydney)") ].

(** [d[k]] on a dictionary literal: [KeyError] when the key is absent *)
Fixpoint dict_get (d : list (string * string)) (k : string) : py_result string :=
  match d with
  | [] => Raises KeyError
  | (k', v) :: d' => if String.eqb k' k then Returns v else dict_get d' k
  end.

Record Tracker : Type := mk_tracker {
  bucket_name : string;
  account_id : string
}.

Definition get_region_prefix (self : Tracker) (region : string) : string :=
  S3_USER_ACTIVITY_REPORT_PREFIX +:+ "/" +:+ account_id self +:+ "/"
  +:+ SUBSCRIPTION_SERVICE_NAME +:+ "Logs/by_user_analytic/" +:+ region +:+ "/".

(** the command line of the child process *)
Record Cmd : Type := mk_cmd {
  cmd_bucket : string;
  cmd_prefix : string;
  cmd_output : string;
  cmd_days : option nat
}.

(** [if days:] holds for a number other than zero *)
Definition days_flag (days : option nat) : option nat :=
  match days with
  | Some (S n) => Some (S n)
  | _ => None
  end.

Definition region_cmd (self : Tracker) (region : string) (days : option nat) : Cmd :=
  mk_cmd (bucket_name self) (get_region_prefix self region)
         ("data/temp_" +:+ region +:+ ".csv") (days_flag days).

(** the file [data/temp_<region>.csv] once the child has ended *)
Inductive TempFile : Type :=
| NoFile                                   (* [region_file.exists()] is false *)
| Unreadable                               (* [pd.read_csv] raises *)
| Table (rows : list ActivityRecord).

(** what [subprocess.run(cmd, ..., timeout=300)] does *)
Inductive ChildRun : Type :=
| RunRaises                                (* time-out, or the child cannot be started *)
| RunExits (returncode : Z) (file : TempFile).

Record Host : Type := mk_host {
  subprocess_run : Cmd -> ChildRun;
  to_csv_ok : bool                         (* can the artifact be written *)
}.

Record TaggedRecord : Type := mk_tagged {
  record : ActivityRecord;
  Region : string;
  RegionName : string
}.

(** what the page shows: the calls of [st.write], [st.success],
    [st.warning] and [st.error], by region label *)
Inductive Msg : Type :=
| Processing (label : string)
| RegionDone (label : string)
| RegionNoData (label : string)            (* the warning *)
| AllRegionsEmpty
| Integrated (rows : nat)
| IntegrationError.

(** the body of the loop for one region: the frames collected so far and
    the messages shown, or the exception that leaves the loop *)
Definition region_step (self : Tracker) (host : Host) (days : option nat)
    (region : string) (all_dataframes : list (list TaggedRecord))
  : py_result (list (list TaggedRecord)) * list Msg :=
  match dict_get SUPPORTED_REGIONS region with
  | Raises e => (Raises e, [])
  | Returns label =>
      match subprocess_run host (region_cmd self region days) with
      | RunRaises => (Raises ServiceError, [Processing label])
      | RunExits returncode file =>
          if (returncode =? 0)%Z then
            match file with
            | NoFile => (Returns all_dataframes, [Processing label; RegionDone label])
            | Unreadable => (Raises ValueError, [Processing label])
            | Table rows =>
                if df_empty rows
                then (Returns all_dataframes, [Processing label; RegionDone label])
                else (Returns (all_dataframes
                               ++ [map (fun r => mk_tagged r region label) rows])%list,
                      [Processing label; RegionDone label])
            end
          else (Returns all_dataframes, [Processing label; RegionNoData label])
      end
  end.

Fixpoint region_loop (self : Tracker) (host : Host) (days : option nat)
    (regions : list string) (all_dataframes : list (list TaggedRecord))
  : py_result (list (list TaggedRecord)) * list Msg :=
  match regions with
  | [] => (Returns all_dataframes, [])
  | region :: rest =>
      match region_step self host days region all_dataframes with
      | (Returns dfs, msgs) =>
          let '(res, msgs') := region_loop self host days rest dfs in
          (res, (msgs ++ msgs')%list)
      | (Raises e, msgs) => (Raises e, msgs)
      end
  end.

(** the value returned, the artifact written under [data/], the messages *)
Record RunReport : Type := mk_report {
  succeeded : bool;
  artifact : option (list TaggedRecord);
  messages : list Msg
}.

Definition consolidate_region_data (self : Tracker) (host : Host)
    (regions : list string) (days : option nat) : RunReport :=
  match region_loop self host days regions [] with
  | (Returns all_dataframes, msgs) =>
      match all_dataframes with
      | [] => mk_report false None (msgs ++ [AllRegionsEmpty])%list
      | _ =>
          let consolidated_df := concat all_dataframes in
          if to_csv_ok host
          then mk_report true (Some consolidated_df)
                         (msgs ++ [Integrated (length consolidated_df)])%list
          else mk_report false None (msgs ++ [IntegrationError])%list
      end
  | (Raises _, msgs) => mk_report false None (msgs ++ [IntegrationError])%list
  end.

(** ** The identity mapper: [IAMIdentityCenterMapper]

    Time stamps ([time.time()]) are rational numbers of seconds.  A record
    of the cache is a dictionary from field names to JSON scalars, as
    [json.load] gives them back. *)

Inductive value : Type :=
| VStr (s : string)
| VNum (q : Q)
| VNull.

Abbreviation info := (gmap string value).

(** the persisted document [data/user_cache.json] *)
Inductive CacheFile : Type :=
| Absent
| Corrupt                                  (* [json.load] raises *)
| Stored (content : gmap string info).

Record Mapper : Type := mk_mapper {
  identity_store_client : bool;            (* [None] or a client *)
  identity_store_id : option string;
  user_cache : gmap string info;
  cache_file : CacheFile
}.

(** *** The identity directory

    Modelled from the spec: the identity directory capability of section 6,
    [describe_user(store_id, user_id) -> attributes] and
    [list_users(store_id, filter?, continuation_token?) -> page of users]
    (boto3's identitystore client is not part of the repository).  The
    attributes have the shape the service declares. *)

Record NameAttrs : Type := mk_name {
  GivenName : option string;
  FamilyName : option string
}.

Record EmailAttrs : Type := mk_email {
  Value : option string
}.

Record UserAttrs : Type := mk_attrs {
  attr_UserId : string;
  UserName : option string;
  DisplayName : option string;
  Name : option NameAttrs;
  Emails : option (list EmailAttrs)
}.

Record UsersPage : Type := mk_page {
  Users : option (list UserAttrs);
  NextToken : option string
}.

Record Directory : Type := mk_directory {
  describe_user : string -> string -> py_result UserAttrs;
  list_users : string -> option string -> option string -> py_result UsersPage
}.

(** the requests sent to the directory *)
Inductive DirCall : Type :=
| DescribeUser (store_id user_id : string)
| ListUsers (store_id : string) (username_filter next_token : option string).

(** what surrounds one call of [get_user_info] *)
Record Env : Type := mk_env {
  env_dir : Directory;
  env_now : Q;          (* [time.time()] read at the freshness test *)
  env_stamp : Q;        (* [time.time()] read when the record is built *)
  env_save_ok : bool    (* can the cache file be written *)
}.

Definition TTL : Q := inject_Z 86400.

Definition Qltb (a b : Q) : bool := negb (Qle_bool b a).

(** a string is true when it is not empty *)
Definition truthy (s : option string) : bool :=
  match s with
  | Some (String _ _) => true
  | _ => false
  end.

Definition connected (self : Mapper) : bool :=
  identity_store_client self && truthy (identity_store_id self).

(** [load_cache] *)
Definition load_cache (self : Mapper) : Mapper :=
  match cache_file self with
  | Stored content =>
      mk_mapper (identity_store_client self) (identity_store_id self) content (cache_file self)
  | _ =>
      mk_mapper (identity_store_client self) (identity_store_id self) ∅ (cache_file self)
  end.

(** [save_cache]: a failure to write is printed and dropped *)
Definition save_cache (ok : bool) (self : Mapper) : Mapper :=
  if ok
  then mk_mapper (identity_store_client self) (identity_store_id self)
                 (user_cache self) (Stored (user_cache self))
  else self.

(** [self.user_cache[user_id] = user_info] *)
Definition cache_store (user_id : string) (user_info : info) (self : Mapper) : Mapper :=
  mk_mapper (identity_store_client self) (identity_store_id self)
            (<[user_id := user_info]> (user_cache self)) (cache_file self).

(** the dictionary literal built in [get_user_info] and [list_all_users] *)
Definition make_info (user_id username display_name email first_name last_name : string)
    (cached_at : Q) (source : string) : info :=
  <["user_id" := VStr user_id]>
  (<["username" := VStr username]>
  (<["display_name" := VStr display_name]>
  (<["email" := VStr email]>
  (<["first_name" := VStr first_name]>
  (<["last_name" := VStr last_name]>
  (<["cached_at" := VNum cached_at]>
  (<["source" := VStr source]> ∅))))))).

(** [response.get("Name", {}).get(field, "")] *)
Definition name_field (field : NameAttrs -> option string) (u : UserAttrs) : string :=
  match Name u with
  | Some n => default "" (field n)
  | None => ""
  end.

(** the first e-mail address, if any *)
Definition first_email (u : UserAttrs) : string :=
  match Emails u with
  | Some (e :: _) => default "" (Value e)
  | _ => ""
  end.

Definition directory_info (user_id : string) (u : UserAttrs) (cached_at : Q) : info :=
  make_info user_id (default "" (UserName u)) (default "" (DisplayName u))
            (first_email u) (name_field GivenName u) (name_field FamilyName u)
            cached_at "iam_identity_center".

Definition fallback_info (user_id : string) (cached_at : Q) : info :=
  make_info user_id ("User-" +:+ slice_to 8 user_id) ("User-" +:+ slice_to 8 user_id)
            "" "" "" cached_at "fallback".

(** [cached_info.get("cached_at", 0)], as the number the subtraction needs *)
Definition cached_at_of (cached_info : info) : py_result Q :=
  match cached_info !! "cached_at" with
  | None => Returns 0%Q
  | Some (VNum q) => Returns q
  | Some _ => Raises TypeError
  end.

(** the test of lines 95-98: the cached record when it is fresh *)
Definition fresh_entry (now : Q) (user_id : string) (self : Mapper)
  : py_result (option info) :=
  match user_cache self !! user_id with
  | Some cached_info =>
      match cached_at_of cached_info with
      | Returns t =>
          if Qltb (now - t) TTL then Returns (Some cached_info) else Returns None
      | Raises e => Raises e
      end
  | None => Returns None
  end.

(** [get_user_info]: the value returned (or the exception), the mapper
    afterwards, and the requests sent to the directory *)
Definition get_user_info (env : Env) (user_id : string) (self : Mapper)
  : py_result info * Mapper * list DirCall :=
  match fresh_entry (env_now env) user_id self with
  | Raises e => (Raises e, self, [])
  | Returns (Some cached_info) => (Returns cached_info, self, [])
  | Returns None =>
      if connected self then
        let store_id := default "" (identity_store_id self) in
        match describe_user (env_dir env) store_id user_id with
        | Returns response =>
            let user_info := directory_info user_id response (env_stamp env) in
            (Returns user_info,
             save_cache (env_save_ok env) (cache_store user_id user_info self),
             [DescribeUser store_id user_id])
        | Raises _ =>
            (Returns (fallback_info user_id (env_stamp env)), self,
             [DescribeUser store_id user_id])
        end
      else (Returns (fallback_info user_id (env_stamp env)), self, [])
  end.

(** [bulk_get_users]: every identifier through [get_user_info], each call
    in its own surroundings; an exception leaves the loop *)
Fixpoint bulk_get_users (envs : nat -> Env) (user_ids : list string)
    (results : gmap string info) (self : Mapper)
  : py_result (gmap string info) * Mapper * list DirCall :=
  match user_ids with
  | [] => (Returns results, self, [])
  | user_id :: rest =>
      match get_user_info (envs 0) user_id self with
      | (Returns user_info, self', calls) =>
          let '(res, self'', calls') :=
            bulk_get_users (fun n => envs (S n)) rest (<[user_id := user_info]> results) self' in
          (res, self'', (calls ++ calls')%list)
      | (Raises e, self', calls) => (Raises e, self', calls)
      end
  end.

(** [search_user_by_username] *)
Definition search_user_by_username (env : Env) (username : string) (self : Mapper)
  : option info * Mapper * list DirCall :=
  if connected self then
    let store_id := default "" (identity_store_id self) in
    let call := ListUsers store_id (Some username) None in
    match list_users (env_dir env) store_id (Some username) None with
    | Returns response =>
        match default [] (Users response) with
        | user :: _ =>
            match get_user_info env (attr_UserId user) self with
            | (Returns user_info, self', calls) => (Some user_info, self', call :: calls)
            | (Raises _, self', calls) => (None, self', call :: calls)
            end
        | [] => (None, self, [call])
        end
    | Raises _ => (None, self, [call])
    end
  else (None, self, []).

(** [list_all_users] *)

(** the inner loop over the users of one page; [clock n] is the time read
    for the [n]-th user listed *)
Fixpoint store_page (clock : nat -> Q) (page : list UserAttrs)
    (users : list info) (self : Mapper) : list info * Mapper :=
  match page with
  | [] => (users, self)
  | user :: rest =>
      let user_info :=
        directory_info (attr_UserId user) user (clock (length users)) in
      store_page clock rest (users ++ [user_info]) (cache_store (attr_UserId user) user_info self)
  end.

(** how the paging loop ends *)
Inductive Listing : Type :=
| Listed (users : list info)               (* the loop ended, the cache was saved *)
| ListingFailed                            (* an exception: the empty list is returned *)
| StillListing.                            (* more pages than the bound allows *)

(** the [while True] loop, run for at most [fuel] pages *)
Fixpoint list_pages (fuel : nat) (dir : Directory) (clock : nat -> Q) (save_ok : bool)
    (store_id : string) (next_token : option string)
    (users : list info) (self : Mapper) : Listing * Mapper * list DirCall :=
  match fuel with
  | 0 => (StillListing, self, [])
  | S fuel' =>
      let token := if truthy next_token then next_token else None in
      let call := ListUsers store_id None token in
      match list_users dir store_id None token with
      | Raises _ => (ListingFailed, self, [call])
      | Returns response =>
          let '(users', self') :=
            store_page clock (default [] (Users response)) users self in
          if truthy (NextToken response) then
            let '(res, self'', calls) :=
              list_pages fuel' dir clock save_ok store_id (NextToken response) users' self' in
            (res, self'', call :: calls)
          else (Listed users', save_cache save_ok self', [call])
      end
  end.

Definition list_all_users (fuel : nat) (dir : Directory) (clock : nat -> Q) (save_ok : bool)
    (self : Mapper) : Listing * Mapper * list DirCall :=
  if connected self
  then list_pages fuel dir clock save_ok (default "" (identity_store_id self)) None [] self
  else (Listed [], self, []).

(** ** Vocabulary of the specification: date tokens *)

(** a 12-digit numeric token *)
Definition is_token (tok : string) : Prop :=
  String.length tok = 12 /\ all_chars is_digit tok = true.

(** [filename] reads [pre], an underscore, the token, an underscore, [post] *)
Definition token_at (pre tok post filename : string) : Prop :=
  filename = pre +:+ "_" +:+ tok +:+ "_" +:+ post /\ is_token tok.


(** no underscore-delimited token starts further to the left *)
Definition leftmost_token (filename tok : string) : Prop :=
  exists pre post,
    token_at pre tok post filename
    /\ forall pre' tok' post',
         token_at pre' tok' post' filename -> String.length pre <= String.length pre'.

Definition decimal (s : string) : nat := decimal_from 0 s.

(** the first eight digits of a token, read as YYYYMMDD *)
Definition token_year (tok : string) : nat := decimal (substring 0 4 tok).
Definition token_month (tok : string) : nat := decimal (substring 4 2 tok).
Definition token_day (tok : string) : nat := decimal (substring 6 2 tok).

Definition token_date_valid (tok : string) : bool :=
  valid_date (token_year tok) (token_month tok) (token_day tok).

Definition token_date (tok : string) : datetime :=
  mk_datetime (token_year tok) (token_month tok) (token_day tok) 0 0 0 0.

(** what [%m%d] makes of four characters: the month and the day when the
    first match converts the whole input *)
Definition md_outcome (s : string) : option (nat * nat) :=
  match regex_md s with
  | (m, d, EmptyString) :: _ => Some (py_int m, py_int d)
  | _ => None
  end.

Definition md_expected (m1 m2 d1 d2 : ascii) : option (nat * nat) :=
  let m := 10 * digit_value m1 + digit_value m2 in
  let d := 10 * digit_value d1 + digit_value d2 in
  if (1 <=? m) && (m <=? 12) && (1 <=? d) && (d <=? 31) then Some (m, d) else None.

Definition digits : list ascii :=
  ["0"; "1"; "2"; "3"; "4"; "5"; "6"; "7"; "8"; "9"]%char.

Definition md_agree (m1 m2 d1 d2 : ascii) : bool :=
  bool_decide (md_outcome (String m1 (String m2 (String d1 (String d2 EmptyString))))
               = md_expected m1 m2 d1 d2).

(** ** Vocabulary of the specification: the file catalog *)

(** the objects a listing of [base_prefix] answers with *)
Definition listing (s3 : S3) (base_prefix : string) : list S3Object :=
  List.filter (fun o => String.prefix base_prefix (Key o)) (s3_objects s3).

(** [a <= b] on datetimes, in words: equal, or strictly before *)
Definition dt_le (a b : datetime) : Prop := a = b \/ dt_ltb a b = true.

(** the date bounds, inclusive at both ends; an absent bound does not bind *)
Definition within_bounds (start_date end_date : option datetime) (d : datetime) : Prop :=
  (forall s, start_date = Some s -> dt_le s d)
  /\ (forall e, end_date = Some e -> dt_le d e).

(** the catalog entry of an object: its key ends in [.csv], the date of its
    file name parses and lies within the bounds *)
Definition catalogued (start_date end_date : option datetime) (obj : S3Object)
  : option SourceFile :=
  if endswith (Key obj) ".csv" then
    match extract_date_from_filename (basename (Key obj)) with
    | Returns d =>
        if before_start start_date d || after_end end_date d then None
        else Some (mk_source_file (Key obj) d (Size obj) (LastModified obj))
    | Raises _ => None
    end
  else None.

Definition by_date (a b : SourceFile) : Prop := dt_le (file_date a) (file_date b).

(** ** Vocabulary of the specification: the consolidated dataset *)

(** the order on cells: text by the order on strings, a missing value last *)
Definition cell_le (a b : cell) : Prop :=
  match a, b with
  | _, None => True
  | None, Some _ => False
  | Some x, Some y => String.leb x y = true
  end.

(** lexicographic order on (ReportDate, UserId) *)
Definition record_le (a b : ActivityRecord) : Prop :=
  String.ltb (ReportDate a) (ReportDate b) = true
  \/ (ReportDate a = ReportDate b /\ cell_le (UserId a) (UserId b)).

(** ** Vocabulary of the specification: region aggregation *)

(** the child process of the region ended well and left a table with rows *)
Definition yields_data (self : Tracker) (host : Host) (days : option nat)
    (region : string) (rows : list ActivityRecord) : Prop :=
  subprocess_run host (region_cmd self region days) = RunExits 0%Z (Table rows)
  /\ rows <> [].

Definition yields_no_data (self : Tracker) (host : Host) (days : option nat)
    (region : string) : Prop :=
  forall rows, ~ yields_data self host days region rows.

(** a step of the loop raises for the region: its name is not a supported
    one, the child process cannot be run to its end, or the file it left
    cannot be read *)
Definition region_raises (self : Tracker) (host : Host) (days : option nat)
    (region : string) : bool :=
  match dict_get SUPPORTED_REGIONS region with
  | Raises _ => true
  | Returns _ =>
      match subprocess_run host (region_cmd self region days) with
      | RunRaises => true
      | RunExits returncode Unreadable => (returncode =? 0)%Z
      | RunExits _ _ => false
      end
  end.

(** the frame a region adds to [all_dataframes], if any *)
Definition region_frame (self : Tracker) (host : Host) (days : option nat)
    (region : string) : option (list TaggedRecord) :=
  match dict_get SUPPORTED_REGIONS region,
        subprocess_run host (region_cmd self region days) with
  | Returns label, RunExits returncode (Table (r :: rows)) =>
      if (returncode =? 0)%Z
      then Some (map (fun x => mk_tagged x region label) (r :: rows))
      else None
  | _, _ => None
  end.

(** ** Vocabulary of the specification: the identity cache *)

(** the record is younger than the time to live *)
Definition fresh (now : Q) (cached_info : info) : Prop :=
  exists t, cached_at_of cached_info = Returns t /\ (now - t < TTL)%Q.

(** the identifier has no cached record, or one that has expired *)
Definition no_fresh_entry (now : Q) (user_id : string) (self : Mapper) : Prop :=
  user_cache self !! user_id = None
  \/ exists cached_info t,
       user_cache self !! user_id = Some cached_info
       /\ cached_at_of cached_info = Returns t /\ (TTL <= now - t)%Q.

(** the directory gives no answer for the identifier: the mapper has no
    client or no store, or the request raises (service error, not found) *)
Definition lookup_fails (dir : Directory) (user_id : string) (self : Mapper) : Prop :=
  connected self = false
  \/ exists e,
       describe_user dir (default "" (identity_store_id self)) user_id = Raises e.

(** the directory resolves the identifier *)
Definition lookup_resolves (dir : Directory) (user_id : string) (self : Mapper)
    (response : UserAttrs) : Prop :=
  connected self = true
  /\ describe_user dir (default "" (identity_store_id self)) user_id = Returns response.

Definition info_keys : list string :=
  ["user_id"; "username"; "display_name"; "email";
   "first_name"; "last_name"; "cached_at"; "source"].

Definition has_all_keys (r : info) : Prop :=
  forall k, In k info_keys -> is_Some (r !! k).

Definition known_source (r : info) : Prop :=
  r !! "source" = Some (VStr "iam_identity_center")
  \/ r !! "source" = Some (VStr "fallback").

(** a well-formed record of the cache: all the fields, a number as time
    stamp, a source the mapper writes *)
Definition wf_info (r : info) : Prop :=
  has_all_keys r /\ (exists q, r !! "cached_at" = Some (VNum q)) /\ known_source r.

Definition wf_cache (self : Mapper) : Prop :=
  forall user_id r, user_cache self !! user_id = Some r -> wf_info r.

(** ** Sample data *)

Definition sample_store : S3 :=
  mk_s3 [ mk_object "logs/a_202510210000_report.csv" 10 (mk_datetime 2025 10 22 1 0 0 0);
          mk_object "logs/a_202510200000_report.csv" 12 (mk_datetime 2025 10 21 1 0 0 0);
          mk_object "logs/readme.csv" 3 (mk_datetime 2025 10 21 1 0 0 0);
          mk_object "logs/a_202510190000_report.csv" 9 (mk_datetime 2025 10 20 1 0 0 0);
          mk_object "logs/a_202510220000_report.txt" 9 (mk_datetime 2025 10 23 1 0 0 0);
          mk_object "other/a_202510200000_report.csv" 9 (mk_datetime 2025 10 21 1 0 0 0) ]
        true
        (fun _ => None).

Definition U1_first : ActivityRecord :=
  mk_record (Some "U1") (Some "2025-10-20") [("Chat_MessagesSent", Some "5")] "2025-10-21".

Definition U1_second : ActivityRecord :=
  mk_record (Some "U1") (Some "2025-10-20") [("Chat_MessagesSent", Some "9")] "2025-10-20".

Definition U2_row : ActivityRecord :=
  mk_record (Some "U2") (Some "2025-10-20") [("Chat_MessagesSent", Some "1")] "2025-10-21".

(** a reader of one-line files: [user,date,messages] *)
Definition sample_read_csv (content : string) : py_result (list CsvRow) :=
  match split "," content with
  | [u; d; n] => Returns [mk_row (Some u) (Some d) [("Chat_MessagesSent", Some n)]]
  | _ => Raises ValueError
  end.

Definition sample_bodies (key : string) : option string :=
  if String.eqb key "logs/a_202510200000_report.csv" then Some "U1,2025-10-20,5"
  else if String.eqb key "logs/a_202510210000_report.csv" then Some "U1,2025-10-20,9"
  else if String.eqb key "logs/a_202510190000_report.csv" then Some "corrupt"
  else None.

Definition sample_store_bodies : S3 :=
  mk_s3 (s3_objects sample_store) true sample_bodies.

Definition sample_tracker : Tracker := mk_tracker "bucket" "123456789012".

(** us-east-1 has one row; the child process of us-west-2 runs into the
    time limit *)
Definition host_timeout : Host :=
  mk_host (fun c =>
             if String.eqb (cmd_output c) "data/temp_us-east-1.csv"
             then RunExits 0%Z (Table [U2_row])
             else RunRaises)
          true.

(** us-east-1 has one row; us-west-2 has none *)
Definition host_one_empty : Host :=
  mk_host (fun c =>
             if String.eqb (cmd_output c) "data/temp_us-east-1.csv"
             then RunExits 0%Z (Table [U2_row])
             else RunExits 1%Z NoFile)
          true.

Definition sample_user_id : string := "1458e458-7041-709b-8e32-f0a74754c127".

Definition sample_attrs : UserAttrs :=
  mk_attrs sample_user_id (Some "bedrock_user1") (Some "Bedrock User")
           (Some (mk_name (Some "Bedrock") (Some "User")))
           (Some [mk_email (Some "user1@example.com")]).

(** a directory that knows one user *)
Definition sample_directory : Directory :=
  mk_directory
    (fun _ user_id =>
       if String.eqb user_id sample_user_id then Returns sample_attrs
       else Raises ServiceError)
    (fun _ _ _ => Returns (mk_page (Some [sample_attrs]) None)).

(** a directory that cannot be reached *)
Definition directory_down : Directory :=
  mk_directory (fun _ _ => Raises ServiceError) (fun _ _ _ => Raises ServiceError).

Definition sample_mapper : Mapper :=
  mk_mapper true (Some "d-9067f33d3d") ∅ Absent.

Definition env_at (dir : Directory) (now : Z) : Env :=
  mk_env dir (inject_Z now) (inject_Z now) true.

(** ** The rest of the mapper *)

(** [get_identity_store_id]: the store of the first instance that
    [list_instances] answers with; nothing without a client, without an
    instance, or when the call raises *)
Definition get_identity_store_id (sso_admin_client : bool)
    (list_instances : py_result (list string)) : option string :=
  if sso_admin_client then
    match list_instances with
    | Returns (store_id :: _) => Some store_id
    | Returns [] => None
    | Raises _ => None
    end
  else None.

(** [initialize_clients]: [sso_ok] and [identitystore_ok] tell whether
    [boto3.client] gives the client or raises *)
Definition initialize_clients (sso_ok identitystore_ok : bool)
    (list_instances : py_result (list string)) (self : Mapper) : Mapper :=
  if sso_ok && identitystore_ok
  then mk_mapper true (get_identity_store_id true list_instances)
                 (user_cache self) (cache_file self)
  else mk_mapper false (identity_store_id self) (user_cache self) (cache_file self).

(** [IAMIdentityCenterMapper()] with the cache file as found on disk *)
Definition new_mapper (file : CacheFile) (sso_ok identitystore_ok : bool)
    (list_instances : py_result (list string)) : Mapper :=
  initialize_clients sso_ok identitystore_ok list_instances
    (load_cache (mk_mapper false None ∅ file)).

(** the truth value of a field of a record *)
Definition value_truthy (v : value) : bool :=
  match v with
  | VStr (String _ _) => true
  | VStr EmptyString => false
  | VNum q => negb (Qeq_bool q 0)
  | VNull => false
  end.

(** [d[k]] on a record *)
Definition info_get (user_info : info) (k : string) : py_result value :=
  match user_info !! k with
  | Some v => Returns v
  | None => Raises KeyError
  end.

(** [get_display_name] *)
Definition get_display_name (env : Env) (user_id : string) (self : Mapper)
  : py_result value * Mapper * list DirCall :=
  match get_user_info env user_id self with
  | (Returns user_info, self', calls) =>
      match info_get user_info "display_name" with
      | Raises e => (Raises e, self', calls)
      | Returns display_name =>
          if value_truthy display_name then (Returns display_name, self', calls)
          else
            match info_get user_info "username" with
            | Raises e => (Raises e, self', calls)
            | Returns username =>
                if value_truthy username then (Returns username, self', calls)
                else (Returns (VStr ("User-" +:+ slice_to 8 user_id)), self', calls)
            end
      end
  | (Raises e, self', calls) => (Raises e, self', calls)
  end.

(** [get_email]: [user_info.get("email", "")] *)
Definition get_email (env : Env) (user_id : string) (self : Mapper)
  : py_result value * Mapper * list DirCall :=
  match get_user_info env user_id self with
  | (Returns user_info, self', calls) =>
      (Returns (default (VStr "") (user_info !! "email")), self', calls)
  | (Raises e, self', calls) => (Raises e, self', calls)
  end.

(** [get_cache_stats] *)
Record CacheStats : Type := mk_stats {
  total_users : nat;
  iam_users : nat;
  fallback_users : nat;
  identity_store_connected : bool
}.

(** [u.get("source") == name] *)
Definition has_source (name : string) (u : info) : bool :=
  match u !! "source" with
  | Some (VStr s) => String.eqb s name
  | _ => false
  end.

Definition cache_values (self : Mapper) : list info :=
  (map_to_list (user_cache self)).*2.

Definition get_cache_stats (self : Mapper) : CacheStats :=
  mk_stats (size (user_cache self))
           (length (List.filter (has_source "iam_identity_center") (cache_values self)))
           (length (List.filter (has_source "fallback") (cache_values self)))
           (identity_store_client self && bool_decide (is_Some (identity_store_id self))).

(** ** [merge_csv.py]: the report date of a file

    [date_str = filename.split('_')[-2][:8]] and
    [report_date = f"{date_str[:4]}-{date_str[4:6]}-{date_str[6:8]}"];
    [None] stands for the [IndexError] of a name without underscore. *)
Definition merge_csv_report_date (filename : string) : option string :=
  match rev (split "_" filename) with
  | _ :: part :: _ =>
      let date_str := slice_to 8 part in
      Some (substring 0 4 date_str +:+ "-" +:+ substring 4 2 date_str
            +:+ "-" +:+ substring 6 2 date_str)
  | _ => None
  end.

(** ** Vocabulary of the further properties *)

(** every record of the cache has the property *)
Definition cache_all (P : info -> Prop) (self : Mapper) : Prop :=
  forall user_id r, user_cache self !! user_id = Some r -> P r.

(** no record of the cache is a fallback *)
Definition no_fallback_cached (self : Mapper) : Prop :=
  forall user_id r, user_cache self !! user_id = Some r -> has_source "fallback" r = false.

(** the cache file holds what the cache holds *)
Definition cache_saved (self : Mapper) : Prop :=
  cache_file self = Stored (user_cache self).

(** the rows a region adds to the artifact *)
Definition region_rows (self : Tracker) (host : Host) (days : option nat)
    (region : string) : nat :=
  match region_frame self host days region with
  | Some frame => length frame
  | None => 0
  end.

(** the character does not occur in the string *)
Definition free_of (c : ascii) (s : string) : Prop :=
  all_chars (fun x => negb (Ascii.eqb x c)) s = true.

(** the directory answers no request *)
Definition directory_unreachable (dir : Directory) : Prop :=
  forall store_id user_id, exists e, describe_user dir store_id user_id = Raises e.

(** a user record returned by [list_all_users]: a directory record whose
    identifier the cache knows *)
Definition listed_record (self : Mapper) (r : info) : Prop :=
  exists user_id,
    r !! "user_id" = Some (VStr user_id)
    /\ is_Some (user_cache self !! user_id)
    /\ has_source "iam_identity_center" r = true.

Global Instance datetime_eq_dec : EqDecision datetime.
Proof. solve_decision. Defined.

(** the file is dated [d] *)
Definition dated (d : datetime) (f : SourceFile) : bool := bool_decide (file_date f = d).

(** the date passes both tests of the loop in [list_csv_files] *)
Definition in_bounds (start_date end_date : option datetime) (f : SourceFile) : bool :=
  negb (before_start start_date (file_date f)) && negb (after_end end_date (file_date f)).

(** the keys of a list of rows, as a set *)
Definition key_set (rows : list ActivityRecord) : gset (cell * cell) :=
  list_to_set (map dedup_key rows).



(** * Properties *)

(** ** The date token parser *)

Example extract_date_report :
  extract_date_from_filename "123456789012_by_user_analytic_202510200000_report.csv"
  = Returns (mk_datetime 2025 10 20 0 0 0 0).
Proof. reflexivity. Qed.

Example extract_date_feb30 :
  extract_date_from_filename "a_202502300000_report.csv" = Raises ValueError.
Proof. reflexivity. Qed.

Example extract_date_leap :
  extract_date_from_filename "a_202402290000_report.csv"
  = Returns (mk_datetime 2024 2 29 0 0 0 0).
Proof. reflexivity. Qed.

Example extract_date_short_token :
  extract_date_from_filename "report_2025102000_x.csv" = Raises ValueError.
Proof. reflexivity. Qed.

Lemma append_cons c s t : String c s +:+ t = String c (s +:+ t).
Proof. reflexivity. Qed.

Lemma append_empty_l t : "" +:+ t = t.
Proof. reflexivity. Qed.

Lemma length_append s t : String.length (s +:+ t) = String.length s + String.length t.
Proof. induction s as [|c s IH]; [done|]. rewrite append_cons. simpl. by rewrite IH. Qed.

Lemma append_same_length s1 s2 t1 t2 :
  s1 +:+ t1 = s2 +:+ t2 -> String.length s1 = String.length s2 -> s1 = s2 /\ t1 = t2.
Proof.
  revert s2. induction s1 as [|c s1 IH]; intros [|c2 s2] Heq Hlen; try discriminate.
  - done.
  - rewrite !append_cons in Heq. injection Heq as -> Heq. simpl in Hlen.
    destruct (IH s2 Heq) as [-> ->]; [lia|done].
Qed.

Lemma take_digits_spec n s t r :
  take_digits n s = Some (t, r)
  <-> s = t +:+ r /\ String.length t = n /\ all_chars is_digit t = true.
Proof.
  revert s t r. induction n as [|n IH]; intros s t r; simpl.
  - split.
    + intros [= <- <-]. done.
    + intros (-> & Hlen & _). destruct t; [done|discriminate].
  - destruct s as [|c s].
    + split; [done|]. intros (Heq & Hlen & _). destruct t; discriminate.
    + destruct (is_digit c) eqn:Hc.
      * destruct (take_digits n s) as [[t' r']|] eqn:Htd.
        -- apply IH in Htd as (-> & Hlen & Hall). split.
           ++ intros [= <- <-]. rewrite append_cons. simpl. rewrite Hc, Hall. auto.
           ++ intros (Heq & Hlen' & Hall'). destruct t as [|c' t]; [discriminate|].
              rewrite append_cons in Heq. injection Heq as <- Heq.
              simpl in Hlen', Hall'. apply andb_prop in Hall' as [_ Hall'].
              destruct (append_same_length _ _ _ _ Heq) as [-> ->]; [lia|done].
        -- split; [done|]. intros (Heq & Hlen' & Hall'). destruct t as [|c' t]; [discriminate|].
           rewrite append_cons in Heq. injection Heq as <- ->.
           simpl in Hlen', Hall'. apply andb_prop in Hall' as [_ Hall'].
           assert (take_digits n (t +:+ r) = Some (t, r)) as Hs
             by (apply IH; split_and!; [done|lia|done]).
           congruence.
      * split; [done|]. intros (Heq & Hlen' & Hall'). destruct t as [|c' t]; [discriminate|].
        rewrite append_cons in Heq. injection Heq as <- ->.
        simpl in Hall'. rewrite Hc in Hall'. discriminate.
Qed.

Lemma is_char_eq x c : is_char x c = true <-> c = x.
Proof. unfold is_char. rewrite Ascii.eqb_eq. split; congruence. Qed.

Lemma match_token_here_spec s tok :
  match_token_here s = Some tok <-> exists post, token_at "" tok post s.
Proof.
  unfold match_token_here, token_at, is_token. split.
  - destruct s as [|c s1]; [done|].
    destruct (is_char "_" c) eqn:Hc; [|done]. apply is_char_eq in Hc as ->.
    destruct (take_digits 12 s1) as [[t r]|] eqn:Htd; [|done].
    destruct r as [|c' r]; [done|].
    destruct (is_char "_" c') eqn:Hc'; [|done]. apply is_char_eq in Hc' as ->.
    intros [= ->]. apply take_digits_spec in Htd as (-> & Hlen & Hall).
    exists r. done.
  - intros (post & -> & Hlen & Hall).
    rewrite append_empty_l, append_cons, append_empty_l. simpl is_char. cbv iota.
    assert (take_digits 12 (tok +:+ "_" +:+ post) = Some (tok, "_" +:+ post)) as ->
      by (by apply take_digits_spec).
    done.
Qed.

Lemma re_search_token_leftmost filename tok :
  re_search_token filename = Some tok <-> leftmost_token filename tok.
Proof.
  unfold leftmost_token. induction filename as [|c f IH] in tok |- *.
  - split; [done|]. intros (pre & post & [Heq _] & _).
    destruct pre; discriminate.
  - cbn [re_search_token].
    destruct (match_token_here (String c f)) as [tok0|] eqn:Hm.
    + apply match_token_here_spec in Hm as [post0 Hat0]. split.
      * intros [= <-]. exists "", post0. split; [done|]. intros; simpl; lia.
      * intros (pre & post & Hat & Hmin).
        specialize (Hmin _ _ _ Hat0). destruct pre; [|simpl in Hmin; lia].
        destruct Hat as [Heq [Hlen _]], Hat0 as [Heq0 [Hlen0 _]].
        assert ("_" +:+ tok0 +:+ "_" +:+ post0 = "_" +:+ tok +:+ "_" +:+ post) as Heq2
          by (etrans; [symmetry; exact Heq0|exact Heq]).
        apply (inj (String.app "_")) in Heq2.
        destruct (append_same_length _ _ _ _ Heq2) as [-> _]; [lia|done].
    + assert (forall tok' post', ~ token_at "" tok' post' (String c f)) as Hno.
      { intros tok' post' Hat.
        assert (match_token_here (String c f) = Some tok') as Hs
          by (apply match_token_here_spec; eauto).
        congruence. }
      rewrite IH. split.
      * intros (pre & post & [Heq Htok] & Hmin).
        exists (String c pre), post. split.
        { split; [|done]. rewrite append_cons. by f_equal. }
        intros pre' tok' post' Hat'. destruct pre' as [|c' pre'].
        { by apply Hno in Hat'. }
        destruct Hat' as [Heq' Htok']. rewrite append_cons in Heq'. injection Heq' as <- Heq'.
        specialize (Hmin pre' tok' post' (conj Heq' Htok')). simpl. lia.
      * intros (pre & post & Hat & Hmin). destruct pre as [|c' pre].
        { by apply Hno in Hat. }
        destruct Hat as [Heq Htok]. rewrite append_cons in Heq. injection Heq as <- Heq.
        exists pre, post. split; [done|].
        intros pre' tok' post' [Heq' Htok'].
        assert (token_at (String c pre') tok' post' (String c f)) as Hat'.
        { split; [|done]. rewrite append_cons. by f_equal. }
        apply Hmin in Hat'. simpl in Hat'. lia.
Qed.


(** *** [strptime] on eight digits *)

Lemma is_digit_digits c : is_digit c = true -> In c digits.
Proof.
  destruct c as [[] [] [] [] [] [] [] []]; intros H;
    try discriminate H; simpl; auto 20.
Qed.

Lemma is_digit_not_space c : is_digit c = true -> is_char " " c = false.
Proof. destruct c as [[] [] [] [] [] [] [] []]; intros H; try discriminate H; reflexivity. Qed.

Lemma md_table :
  forallb (fun m1 => forallb (fun m2 => forallb (fun d1 =>
    forallb (md_agree m1 m2 d1) digits) digits) digits) digits = true.
Proof. vm_compute. reflexivity. Qed.

Lemma md_outcome_digits m1 m2 d1 d2 :
  is_digit m1 = true -> is_digit m2 = true -> is_digit d1 = true -> is_digit d2 = true ->
  md_outcome (String m1 (String m2 (String d1 (String d2 EmptyString))))
  = md_expected m1 m2 d1 d2.
Proof.
  intros H1%is_digit_digits H2%is_digit_digits H3%is_digit_digits H4%is_digit_digits.
  pose proof md_table as T.
  pose proof (proj1 (forallb_forall _ _) T _ H1) as T1.
  pose proof (proj1 (forallb_forall _ _) T1 _ H2) as T2.
  pose proof (proj1 (forallb_forall _ _) T2 _ H3) as T3.
  pose proof (proj1 (forallb_forall _ _) T3 _ H4) as T4.
  by apply bool_decide_eq_true in T4.
Qed.

Lemma days_in_month_le y m : days_in_month y m <= 31.
Proof.
  unfold days_in_month.
  do 13 (destruct m as [|m]; [try lia; destruct (is_leap y); lia|]). lia.
Qed.

Lemma strptime_Ymd_md y1 y2 y3 y4 r :
  is_digit y1 = true -> is_digit y2 = true -> is_digit y3 = true -> is_digit y4 = true ->
  strptime_Ymd (String y1 (String y2 (String y3 (String y4 r))))
  = match md_outcome r with
    | Some (m, d) =>
        let y := decimal (String y1 (String y2 (String y3 (String y4 EmptyString)))) in
        if valid_date y m d then Returns (mk_datetime y m d 0 0 0 0)
        else Raises ValueError
    | None => Raises ValueError
    end.
Proof.
  intros H1 H2 H3 H4. unfold strptime_Ymd, regex_Ymd, md_outcome, directive_Y.
  rewrite H1, H2, H3, H4. cbn [andb mbind list_bind app].
  rewrite app_nil_r.
  destruct (regex_md r) as [|[[m d] rest] l]; [done|].
  cbn [mbind list_bind app]. destruct rest; [|done].
  assert (py_int (String y1 (String y2 (String y3 (String y4 ""))))
          = decimal (String y1 (String y2 (String y3 (String y4 ""))))) as ->; [|done].
  unfold decimal. cbn [py_int]. by rewrite (is_digit_not_space _ H1).
Qed.

(** On a token, [strptime] of the first eight characters is the calendar
    check of the year, month and day they spell. *)
Lemma strptime_token tok :
  is_token tok ->
  strptime_Ymd (slice_to 8 tok)
  = if token_date_valid tok then Returns (token_date tok) else Raises ValueError.
Proof.
  intros [Hlen Hall].
  do 12 (destruct tok as [|? tok]; [discriminate Hlen|]).
  destruct tok; [|discriminate Hlen]. clear Hlen.
  cbn [all_chars] in Hall.
  repeat (apply andb_prop in Hall as [? Hall]).
  unfold slice_to. cbn [substring].
  rewrite strptime_Ymd_md by done. rewrite md_outcome_digits by done.
  unfold token_date_valid, token_date, token_year, token_month, token_day.
  cbn [substring]. unfold md_expected.
  set (y := decimal _).
  assert (forall c1 c2, decimal (String c1 (String c2 ""))
                        = 10 * digit_value c1 + digit_value c2) as Hd
    by (intros; unfold decimal; cbn [decimal_from]; lia).
  rewrite !Hd. clear Hd.
  set (m := 10 * _ + _). set (d := 10 * digit_value a5 + _).
  destruct (_ && _ && _ && _) eqn:Hr; [done|].
  replace (valid_date y m d) with false; [done|].
  symmetry. unfold valid_date. pose proof (days_in_month_le y m).
  apply andb_false_iff in Hr as [Hr|Hr]; [apply andb_false_iff in Hr as [Hr|Hr];
    [apply andb_false_iff in Hr as [Hr|Hr]|]|];
    apply Nat.leb_gt in Hr;
    repeat match goal with
           | |- context [?a <=? ?b] => destruct (Nat.leb_spec a b)
           end; try reflexivity; simpl; lia.
Qed.

(** The value of [extract_date_from_filename], by the leftmost token. *)
Lemma extract_date_of_search filename :
  extract_date_from_filename filename
  = match re_search_token filename with
    | Some tok =>
        if token_date_valid tok then Returns (token_date tok) else Raises ValueError
    | None => Raises ValueError
    end.
Proof.
  unfold extract_date_from_filename.
  destruct (re_search_token filename) as [tok|] eqn:Hs; [|done].
  apply re_search_token_leftmost in Hs as (pre & post & [_ Htok] & _).
  by apply strptime_token.
Qed.




(** ** Stable sorting *)

Section StableSort.
Context {A : Type} (lt : A -> A -> bool).
Hypothesis lt_asym : forall a b, lt a b = true -> lt b a = false.

Lemma insert_by_perm x l : Permutation (insert_by lt x l) (x :: l).
Proof.
  induction l as [|y l IH]; simpl; [done|].
  destruct (lt y x); [|done].
  rewrite IH. apply perm_swap.
Qed.

Lemma stable_sort_perm l : Permutation (stable_sort lt l) l.
Proof.
  induction l as [|x l IH]; simpl; [done|].
  unfold stable_sort in *. simpl. rewrite insert_by_perm. by constructor.
Qed.

Lemma insert_by_hd a x l :
  not_after lt a x -> HdRel (not_after lt) a l -> HdRel (not_after lt) a (insert_by lt x l).
Proof.
  intros Hax Hal. destruct l as [|y l]; simpl; [by constructor|].
  destruct (lt y x); constructor; [by inversion Hal|done].
Qed.

Lemma insert_by_sorted x l :
  Sorted (not_after lt) l -> Sorted (not_after lt) (insert_by lt x l).
Proof.
  induction 1 as [|y l Hs IH Hhd]; simpl.
  - repeat constructor.
  - destruct (lt y x) eqn:Hyx.
    + constructor; [done|]. apply insert_by_hd; [|done].
      unfold not_after. by apply lt_asym.
    + constructor; [by constructor|]. by constructor.
Qed.

Lemma stable_sort_sorted l : Sorted (not_after lt) (stable_sort lt l).
Proof.
  induction l as [|x l IH]; [constructor|].
  unfold stable_sort in *. simpl. by apply insert_by_sorted.
Qed.

Lemma stable_sort_In x l : In x (stable_sort lt l) <-> In x l.
Proof.
  split; apply Permutation_in; [|symmetry]; apply stable_sort_perm.
Qed.

End StableSort.

Lemma Sorted_weaken {A} (R S : A -> A -> Prop) l :
  (forall a b, R a b -> S a b) -> Sorted R l -> Sorted S l.
Proof.
  intros HRS. induction 1 as [|x l Hs IH Hhd]; constructor; [done|].
  destruct Hhd; constructor; auto.
Qed.

(** ** The order on datetimes *)

Lemma lex_ltb_irrefl a : lex_ltb a a = false.
Proof.
  induction a as [|x a IH]; [done|]. simpl.
  rewrite Nat.ltb_irrefl, Nat.eqb_refl, IH. done.
Qed.

Lemma lex_ltb_asym a b : lex_ltb a b = true -> lex_ltb b a = false.
Proof.
  revert b. induction a as [|x a IH]; intros [|y b]; simpl; try done.
  intros H. apply orb_true_iff in H as [H|H].
  - apply Nat.ltb_lt in H.
    destruct (Nat.ltb_spec y x); [lia|]. destruct (Nat.eqb_spec y x); [lia|done].
  - apply andb_true_iff in H as [->%Nat.eqb_eq H].
    rewrite Nat.ltb_irrefl, Nat.eqb_refl. simpl. by apply IH.
Qed.

Lemma lex_ltb_total a b :
  length a = length b -> lex_ltb b a = false -> a = b \/ lex_ltb a b = true.
Proof.
  revert b. induction a as [|x a IH]; intros [|y b] Hlen; simpl; try done; [by left|].
  intros H. apply orb_false_iff in H as [Hlt H]. apply Nat.ltb_ge in Hlt.
  destruct (Nat.eqb_spec y x) as [->|Hne].
  - simpl in H. rewrite Nat.ltb_irrefl, Nat.eqb_refl. simpl.
    destruct (IH b) as [->| ->]; auto.
  - right. destruct (Nat.ltb_spec x y); [done|lia].
Qed.

Lemma dt_fields_inj a b : dt_fields a = dt_fields b -> a = b.
Proof. destruct a, b. unfold dt_fields. simpl. by intros [= -> -> -> -> -> -> ->]. Qed.

Lemma dt_ltb_asym a b : dt_ltb a b = true -> dt_ltb b a = false.
Proof. apply lex_ltb_asym. Qed.

Lemma dt_ltb_irrefl a : dt_ltb a a = false.
Proof. apply lex_ltb_irrefl. Qed.

(** [not (b < a)] is [a <= b] *)
Lemma dt_le_iff a b : dt_ltb b a = false <-> dt_le a b.
Proof.
  unfold dt_le. split.
  - intros H. destruct (lex_ltb_total (dt_fields a) (dt_fields b)) as [Heq|Hlt]; auto.
    left. by apply dt_fields_inj.
  - intros [->|H]; [apply dt_ltb_irrefl|by apply dt_ltb_asym].
Qed.

(** ** The file catalog *)

Lemma extract_date_raises filename e :
  extract_date_from_filename filename = Raises e -> e = ValueError.
Proof.
  rewrite extract_date_of_search.
  destruct (re_search_token filename) as [tok|]; [destruct (token_date_valid tok)|];
    congruence.
Qed.

Lemma catalog_entry_catalogued sd ed obj :
  catalog_entry sd ed obj = Returns (catalogued sd ed obj).
Proof.
  unfold catalog_entry, catalogued. destruct (endswith _ _); [|done].
  destruct (extract_date_from_filename _) as [d|e] eqn:He.
  - destruct (before_start sd d); [done|]. by destruct (after_end ed d).
  - by apply extract_date_raises in He as ->.
Qed.

Lemma catalog_loop_omap sd ed objs csv_files :
  catalog_loop sd ed objs csv_files
  = Returns (csv_files ++ omap (catalogued sd ed) objs).
Proof.
  revert csv_files. induction objs as [|obj objs IH]; intros csv_files; simpl.
  - by rewrite app_nil_r.
  - rewrite catalog_entry_catalogued. destruct (catalogued sd ed obj) as [f|].
    + rewrite IH. by rewrite <- app_assoc.
    + apply IH.
Qed.

Lemma list_objects_v2_contents s3 base_prefix :
  s3_list_ok s3 = true ->
  exists response,
    list_objects_v2 s3 base_prefix = Returns response
    /\ default [] (Contents response) = listing s3 base_prefix.
Proof.
  intros Hok. unfold list_objects_v2, listing. rewrite Hok.
  destruct (List.filter _ _); eauto.
Qed.

Lemma list_csv_files_sort s3 base_prefix sd ed :
  s3_list_ok s3 = true ->
  list_csv_files s3 base_prefix sd ed
  = stable_sort (fun a b => dt_ltb (file_date a) (file_date b))
      (omap (catalogued sd ed) (listing s3 base_prefix)).
Proof.
  intros Hok. unfold list_csv_files.
  destruct (list_objects_v2_contents s3 base_prefix Hok) as (resp & -> & ->).
  by rewrite catalog_loop_omap.
Qed.

Lemma catalogued_spec sd ed obj f :
  catalogued sd ed obj = Some f
  <-> exists d,
        endswith (Key obj) ".csv" = true
        /\ extract_date_from_filename (basename (Key obj)) = Returns d
        /\ within_bounds sd ed d
        /\ f = mk_source_file (Key obj) d (Size obj) (LastModified obj).
Proof.
  unfold catalogued, within_bounds. split.
  - destruct (endswith _ _); [|done].
    destruct (extract_date_from_filename _) as [d|]; [|done].
    destruct (before_start sd d) eqn:Hs; [done|].
    destruct (after_end ed d) eqn:He; [done|]. intros [= <-].
    exists d. split_and!; try done.
    + intros s ->. by apply dt_le_iff.
    + intros e ->. by apply dt_le_iff.
  - intros (d & -> & -> & [Hs He] & ->).
    assert (before_start sd d = false) as ->.
    { destruct sd as [s|]; [|done]. apply dt_le_iff. by apply Hs. }
    assert (after_end ed d = false) as ->.
    { destruct ed as [e|]; [|done]. apply dt_le_iff. by apply He. }
    done.
Qed.

(** C3: when the listing call answers, [list_csv_files] returns exactly the
    objects under the prefix whose key ends in [.csv] and whose file name
    gives a date, the date bounds being inclusive at both ends (a file dated
    on [start_date] or on [end_date] itself is kept), each once, sorted by
    ascending date.  A file name without a date is left out; the function
    has no exceptional outcome. *)
Theorem list_csv_files_exact s3 base_prefix start_date end_date :
  s3_list_ok s3 = true ->
  let files := list_csv_files s3 base_prefix start_date end_date in
  (forall f, In f files <->
     exists obj d,
       In obj (s3_objects s3)
       /\ String.prefix base_prefix (Key obj) = true
       /\ endswith (Key obj) ".csv" = true
       /\ extract_date_from_filename (basename (Key obj)) = Returns d
       /\ within_bounds start_date end_date d
       /\ f = mk_source_file (Key obj) d (Size obj) (LastModified obj))
  /\ Permutation files (omap (catalogued start_date end_date) (listing s3 base_prefix))
  /\ Sorted by_date files
  /\ (forall d, within_bounds (Some d) (Some d) d)
  /\ (forall f, In f files ->
        extract_date_from_filename (basename (file_key f)) = Returns (file_date f)).
Proof.
  intros Hok files. subst files. rewrite (list_csv_files_sort _ _ _ _ Hok).
  split_and!.
  - intros f. rewrite stable_sort_In, <- list_elem_of_In, list_elem_of_omap. split.
    + intros (obj & Hin & Hc). apply list_elem_of_In, filter_In in Hin as [Hin Hp].
      apply catalogued_spec in Hc as (d & ? & ? & ? & ?). by exists obj, d.
    + intros (obj & d & Hin & Hp & He & Hd & Hw & ->). exists obj. split.
      * by apply list_elem_of_In, filter_In.
      * apply catalogued_spec. by exists d.
  - apply stable_sort_perm.
  - eapply Sorted_weaken; [|apply stable_sort_sorted].
    + intros a b H. by apply dt_le_iff.
    + intros a b. apply dt_ltb_asym.
  - intros d. split; intros ? [= ->]; by left.
  - intros f Hf.
    rewrite stable_sort_In, <- list_elem_of_In, list_elem_of_omap in Hf.
    destruct Hf as (obj & _ & Hc).
    by apply catalogued_spec in Hc as (d & _ & Hd & _ & ->).
Qed.

Lemma list_csv_files_exact_witness :
  list_csv_files sample_store "logs/"
    (Some (mk_datetime 2025 10 20 0 0 0 0)) (Some (mk_datetime 2025 10 21 0 0 0 0))
  = [ mk_source_file "logs/a_202510200000_report.csv" (mk_datetime 2025 10 20 0 0 0 0)
        12 (mk_datetime 2025 10 21 1 0 0 0);
      mk_source_file "logs/a_202510210000_report.csv" (mk_datetime 2025 10 21 0 0 0 0)
        10 (mk_datetime 2025 10 22 1 0 0 0) ]
  /\ Sorted by_date
       (list_csv_files sample_store "logs/"
          (Some (mk_datetime 2025 10 20 0 0 0 0)) (Some (mk_datetime 2025 10 21 0 0 0 0))).
Proof.
  split; [reflexivity|].
  exact (proj1 (proj2 (proj2
    (list_csv_files_exact sample_store "logs/"
       (Some (mk_datetime 2025 10 20 0 0 0 0)) (Some (mk_datetime 2025 10 21 0 0 0 0))
       eq_refl)))).
Defined.

(** a bound is a datetime: a start bound with a time of day lies after the
    file of that day, whose date is midnight *)
Example list_csv_files_start_with_time :
  list_csv_files sample_store "logs/" (Some (mk_datetime 2025 10 20 13 45 0 0)) None
  = [ mk_source_file "logs/a_202510210000_report.csv" (mk_datetime 2025 10 21 0 0 0 0)
        10 (mk_datetime 2025 10 22 1 0 0 0) ].
Proof. reflexivity. Qed.

(** a listing call that raises gives the empty list *)
Example list_csv_files_listing_raises :
  list_csv_files (mk_s3 (s3_objects sample_store) false (fun _ => None)) "logs/" None None
  = [].
Proof. reflexivity. Qed.

(** ** The report ingestor *)

(** C7: when the object cannot be fetched, its content cannot be parsed, or
    its file name gives no date, [download_and_parse_csv] returns the empty
    batch and raises nothing, and the batches collected from the other files
    are what they would be without that file; when all three steps succeed,
    the batch has one record per row and every record carries as
    [ReportDate] the date extracted from the file name. *)
Theorem download_and_parse_csv_spec read_csv s3 key :
  ((exists e, get_object s3 key = Raises e)
   \/ (exists content e, get_object s3 key = Returns content /\ read_csv content = Raises e)
   \/ (exists e, extract_date_from_filename (basename key) = Raises e) ->
   download_and_parse_csv read_csv s3 key = []
   /\ forall before f after,
        file_key f = key ->
        download_all read_csv s3 (before ++ f :: after)
        = download_all read_csv s3 (before ++ after))
  /\ (forall content df d,
        get_object s3 key = Returns content ->
        read_csv content = Returns df ->
        extract_date_from_filename (basename key) = Returns d ->
        download_and_parse_csv read_csv s3 key = map (set_ReportDate (strftime_Ymd d)) df
        /\ length (download_and_parse_csv read_csv s3 key) = length df
        /\ forall r, In r (download_and_parse_csv read_csv s3 key) ->
             ReportDate r = strftime_Ymd d).
Proof.
  split.
  - intros Hfail.
    assert (download_and_parse_csv read_csv s3 key = []) as Hempty.
    { unfold download_and_parse_csv.
      destruct Hfail as [[e ->]|[(content & e & -> & ->)|[e He]]]; [done..|].
      rewrite He. destruct (get_object s3 key); [|done]. by destruct (read_csv _). }
    split; [done|]. intros before f after <-.
    unfold download_all. rewrite !map_app, !List.filter_app. simpl.
    by rewrite Hempty.
  - intros content df d Hget Hread Hdate.
    assert (download_and_parse_csv read_csv s3 key
            = map (set_ReportDate (strftime_Ymd d)) df) as ->
      by (unfold download_and_parse_csv; by rewrite Hget, Hread, Hdate).
    split_and!; [done|by rewrite length_map|].
    intros r (row & <- & _)%in_map_iff. done.
Qed.

Lemma download_and_parse_csv_spec_witness :
  download_and_parse_csv sample_read_csv sample_store_bodies "logs/a_202510190000_report.csv" = []
  /\ download_and_parse_csv sample_read_csv sample_store_bodies "logs/a_202510200000_report.csv"
     = [mk_record (Some "U1") (Some "2025-10-20") [("Chat_MessagesSent", Some "5")] "2025-10-20"].
Proof.
  split.
  - refine (proj1 (proj1 (download_and_parse_csv_spec sample_read_csv sample_store_bodies _) _)).
    right. left. exists "corrupt", ValueError. split; reflexivity.
  - exact (proj1 (proj2 (download_and_parse_csv_spec sample_read_csv sample_store_bodies
                           "logs/a_202510200000_report.csv")
                    "U1,2025-10-20,5" _ (mk_datetime 2025 10 20 0 0 0 0)
                    eq_refl eq_refl eq_refl)).
Defined.

(** ** The consolidator *)

Lemma same_key_true a b : same_key a b = true <-> dedup_key a = dedup_key b.
Proof. unfold same_key. apply bool_decide_eq_true. Qed.

Lemma has_later_duplicate r rest :
  existsb (same_key r) rest = true <-> exists r', In r' rest /\ dedup_key r' = dedup_key r.
Proof.
  rewrite existsb_exists. split; intros (r' & Hin & Hk); exists r'; split; try done.
  - symmetry. by apply same_key_true.
  - apply same_key_true. done.
Qed.

Lemma drop_duplicates_last_In r rows :
  In r (drop_duplicates_last rows) -> In r rows.
Proof.
  induction rows as [|x rows IH]; simpl; [done|].
  destruct (existsb _ _); simpl; intuition.
Qed.

Lemma drop_duplicates_last_NoDup rows :
  NoDup (map dedup_key (drop_duplicates_last rows)).
Proof.
  induction rows as [|x rows IH]; simpl; [constructor|].
  destruct (existsb (same_key x) rows) eqn:Hdup; [done|].
  simpl. apply NoDup_cons. split; [|done].
  intros (r' & Hk & Hin%drop_duplicates_last_In)%list_elem_of_In%in_map_iff.
  assert (existsb (same_key x) rows = true) by (apply has_later_duplicate; eauto).
  congruence.
Qed.

(** the last row of a key stays *)
Lemma drop_duplicates_last_keeps l1 r l2 :
  (forall r', In r' l2 -> dedup_key r' <> dedup_key r) ->
  In r (drop_duplicates_last (l1 ++ r :: l2)).
Proof.
  intros Hlast. induction l1 as [|x l1 IH]; simpl.
  - destruct (existsb (same_key r) l2) eqn:Hdup; [|by left].
    apply has_later_duplicate in Hdup as (r' & Hin & Hk). by apply Hlast in Hk.
  - destruct (existsb _ _); [done|by right].
Qed.

Lemma NoDup_map_unique {A B} (f : A -> B) l x y :
  NoDup (map f l) -> In x l -> In y l -> f x = f y -> x = y.
Proof.
  induction l as [|a l IH]; simpl; [done|].
  intros [Hnot Hnd]%NoDup_cons [->|Hx] [->|Hy] Hf; auto.
  - exfalso. apply Hnot. rewrite Hf. by apply list_elem_of_In, in_map.
  - exfalso. apply Hnot. rewrite <- Hf. by apply list_elem_of_In, in_map.
Qed.

Lemma consolidate_In r batches :
  In r (consolidate batches) <-> In r (drop_duplicates_last (concat batches)).
Proof. unfold consolidate, sort_values. apply stable_sort_In. Qed.

Lemma consolidate_reports_consolidate read_csv s3 base_prefix sd ed :
  consolidate_reports read_csv s3 base_prefix sd ed
  = consolidate (download_all read_csv s3 (list_csv_files s3 base_prefix sd ed)).
Proof.
  unfold consolidate_reports.
  destruct (list_csv_files _ _ _ _) as [|f files]; [done|].
  by destruct (download_all _ _ _).
Qed.

(** C1: the consolidated output holds at most one record per
    (UserId, Date) key, every record of it comes from a batch, and of the
    records sharing a key the one that survives is the last in processing
    order: the record of the last batch that has the key (the last such row
    of that batch), whatever the report dates say. *)
Theorem consolidate_last_write_wins (batches : list (list ActivityRecord)) :
  NoDup (map dedup_key (consolidate batches))
  /\ (forall r, In r (consolidate batches) -> In r (concat batches))
  /\ (forall earlier B later b1 r b2,
        batches = earlier ++ B :: later ->
        B = b1 ++ r :: b2 ->
        (forall r', In r' (b2 ++ concat later) -> dedup_key r' <> dedup_key r) ->
        In r (consolidate batches)
        /\ forall r', In r' (consolidate batches) -> dedup_key r' = dedup_key r -> r' = r).
Proof.
  assert (NoDup (map dedup_key (consolidate batches))) as Hnodup.
  { unfold consolidate, sort_values.
    rewrite (Permutation_map dedup_key (stable_sort_perm record_ltb _)).
    apply drop_duplicates_last_NoDup. }
  split_and!; [done| |].
  - intros r Hin%consolidate_In. by apply drop_duplicates_last_In.
  - intros earlier B later b1 r b2 -> -> Hlast.
    assert (In r (consolidate (earlier ++ (b1 ++ r :: b2) :: later))) as Hin.
    { apply consolidate_In. rewrite concat_app. simpl.
      replace (concat earlier ++ (b1 ++ r :: b2) ++ concat later)
        with ((concat earlier ++ b1) ++ r :: (b2 ++ concat later))
        by (by rewrite <- !app_assoc).
      by apply drop_duplicates_last_keeps. }
    split; [done|]. intros r' Hin' Hk.
    by apply (NoDup_map_unique dedup_key (consolidate (earlier ++ (b1 ++ r :: b2) :: later))).
Qed.

(** the batch processed last wins although its report date is the older *)
Lemma consolidate_last_write_wins_witness :
  consolidate [[U1_first; U2_row]; [U1_second]] = [U1_second; U2_row]
  /\ In U1_second (consolidate [[U1_first; U2_row]; [U1_second]]).
Proof.
  split; [reflexivity|].
  refine (proj1 (proj2 (proj2 (consolidate_last_write_wins [[U1_first; U2_row]; [U1_second]]))
                   [[U1_first; U2_row]] [U1_second] [] [] U1_second [] eq_refl eq_refl _)).
  intros r' [].
Defined.

(** *** The order of the output *)

Lemma string_ltb_asym a b : String.ltb a b = true -> String.ltb b a = false.
Proof.
  unfold String.ltb. rewrite (String.compare_antisym a b).
  by destruct (String.compare b a).
Qed.

Lemma string_ltb_irrefl a : String.ltb a a = false.
Proof. destruct (String.ltb a a) eqn:H; [|done]. by rewrite (string_ltb_asym _ _ H) in H. Qed.

Lemma cell_ltb_asym a b : cell_ltb a b = true -> cell_ltb b a = false.
Proof. destruct a, b; simpl; try done. apply string_ltb_asym. Qed.

Lemma record_ltb_asym a b : record_ltb a b = true -> record_ltb b a = false.
Proof.
  unfold record_ltb. intros H. apply orb_true_iff in H as [H|H].
  - rewrite (string_ltb_asym _ _ H). simpl.
    destruct (String.eqb_spec (ReportDate b) (ReportDate a)) as [Heq|]; [|done].
    rewrite Heq, string_ltb_irrefl in H. done.
  - apply andb_true_iff in H as [->%String.eqb_eq H].
    rewrite string_ltb_irrefl, String.eqb_refl. simpl. by apply cell_ltb_asym.
Qed.

Lemma cell_not_after_le a b : cell_ltb b a = false -> cell_le a b.
Proof.
  destruct a as [x|], b as [y|]; simpl; try done.
  unfold String.ltb, String.leb. rewrite (String.compare_antisym y x).
  by destruct (String.compare x y).
Qed.

Lemma record_not_after_le a b : not_after record_ltb a b -> record_le a b.
Proof.
  unfold not_after, record_ltb, record_le. intros H.
  apply orb_false_iff in H as [Hlt H].
  destruct (String.compare (ReportDate a) (ReportDate b)) eqn:Hc.
  - apply String.compare_eq_iff in Hc. right. split; [done|].
    rewrite Hc, String.eqb_refl in H. by apply cell_not_after_le.
  - left. unfold String.ltb. by rewrite Hc.
  - unfold String.ltb in Hlt. rewrite String.compare_antisym, Hc in Hlt. done.
Qed.

Lemma consolidate_sorted batches : Sorted record_le (consolidate batches).
Proof.
  unfold consolidate, sort_values.
  eapply Sorted_weaken; [apply record_not_after_le|].
  apply stable_sort_sorted, record_ltb_asym.
Qed.

(** C2: every dataset returned by [consolidate_reports] is sorted by
    (ReportDate, UserId): of two consecutive records the first is less than
    or equal to the second in the lexicographic order of the pair. *)
Theorem consolidate_reports_sorted read_csv s3 base_prefix start_date end_date :
  Sorted record_le (consolidate_reports read_csv s3 base_prefix start_date end_date).
Proof. rewrite consolidate_reports_consolidate. apply consolidate_sorted. Qed.

Example consolidate_reports_sample :
  consolidate_reports sample_read_csv sample_store_bodies "logs/" None None
  = [mk_record (Some "U1") (Some "2025-10-20") [("Chat_MessagesSent", Some "9")] "2025-10-21"].
Proof. reflexivity. Qed.

(** ** Region aggregation *)

Lemma forallb_false_exists {A} (p : A -> bool) l :
  forallb p l = false -> exists x, In x l /\ p x = false.
Proof.
  induction l as [|a l IH]; simpl; [done|].
  destruct (p a) eqn:Ha; simpl.
  - intros (x & Hin & Hx)%IH. eauto.
  - eauto.
Qed.

Lemma region_step_clean self host days region acc :
  region_raises self host days region = false ->
  exists msgs,
    region_step self host days region acc
    = (Returns (acc ++ option_list (region_frame self host days region)), msgs)
    /\ forall returncode file label,
         subprocess_run host (region_cmd self region days) = RunExits returncode file ->
         returncode <> 0%Z ->
         dict_get SUPPORTED_REGIONS region = Returns label ->
         In (RegionNoData label) msgs.
Proof.
  unfold region_raises, region_step, region_frame.
  destruct (dict_get SUPPORTED_REGIONS region) as [label|]; [|done].
  destruct (subprocess_run host _) as [|rc file]; [done|].
  destruct (Z.eqb_spec rc 0) as [->|Hrc].
  - destruct file as [| |[|r rows]]; intros Hno; try done;
      (eexists; split; [simpl; by rewrite ?app_nil_r|]);
      intros ??? [= <- <-] Hne; done.
  - intros _. eexists. split.
    + simpl. replace (option_list _) with (@nil (list TaggedRecord)).
      * by rewrite app_nil_r.
      * by destruct file as [| |[|??]].
    + intros ??? [= <- <-] _ [= <-]. simpl. auto.
Qed.

Lemma region_step_raises self host days region acc :
  region_raises self host days region = true ->
  exists e msgs, region_step self host days region acc = (Raises e, msgs).
Proof.
  unfold region_raises, region_step.
  destruct (dict_get SUPPORTED_REGIONS region) as [label|]; [|by eauto].
  destruct (subprocess_run host _) as [|rc file]; [by eauto|].
  destruct file; try done. intros ->. eauto.
Qed.

Lemma region_loop_clean self host days regions acc :
  (forall r, In r regions -> region_raises self host days r = false) ->
  exists msgs,
    region_loop self host days regions acc
    = (Returns (acc ++ omap (region_frame self host days) regions), msgs)
    /\ forall r returncode file label,
         In r regions ->
         subprocess_run host (region_cmd self r days) = RunExits returncode file ->
         returncode <> 0%Z ->
         dict_get SUPPORTED_REGIONS r = Returns label ->
         In (RegionNoData label) msgs.
Proof.
  revert acc. induction regions as [|region rest IH]; intros acc Hclean.
  - exists []. split; [simpl; by rewrite app_nil_r|]. intros ???? [].
  - destruct (region_step_clean self host days region acc) as (m1 & Hstep & Hw1);
      [apply Hclean; by left|].
    destruct (IH (acc ++ option_list (region_frame self host days region)))
      as (m2 & Hloop & Hw2); [intros; apply Hclean; by right|].
    exists (m1 ++ m2). split.
    + cbn [region_loop]. rewrite Hstep, Hloop. f_equal. f_equal.
      rewrite <- app_assoc. f_equal. simpl. by destruct (region_frame _ _ _ _).
    + intros r rc file label [<-|Hin] Hrun Hrc Hlabel; apply in_or_app; eauto.
Qed.

Lemma region_loop_raises self host days regions acc :
  (exists r, In r regions /\ region_raises self host days r = true) ->
  exists e msgs, region_loop self host days regions acc = (Raises e, msgs).
Proof.
  revert acc. induction regions as [|region rest IH]; intros acc (r & Hin & Hr).
  - destruct Hin.
  - cbn [region_loop].
    destruct (region_raises self host days region) eqn:Hregion.
    + destruct (region_step_raises _ _ _ _ acc Hregion) as (e & msgs & ->). eauto.
    + destruct (region_step_clean _ _ _ _ acc Hregion) as (m1 & -> & _).
      destruct Hin as [->|Hin]; [congruence|].
      destruct (IH (acc ++ option_list (region_frame self host days region)))
        as (e & msgs & ->); eauto.
Qed.

Lemma region_frame_spec self host days region frame :
  region_frame self host days region = Some frame
  <-> exists label rows,
        dict_get SUPPORTED_REGIONS region = Returns label
        /\ yields_data self host days region rows
        /\ frame = map (fun x => mk_tagged x region label) rows.
Proof.
  unfold region_frame, yields_data. split.
  - destruct (dict_get SUPPORTED_REGIONS region) as [label|]; [|done].
    destruct (subprocess_run host _) as [|rc [| |[|r rows]]]; try done.
    destruct (Z.eqb_spec rc 0) as [->|]; [|done]. intros [= <-].
    exists label, (r :: rows). done.
  - intros (label & rows & -> & [-> Hne] & ->).
    destruct rows; [done|]. done.
Qed.

(** The run succeeds exactly when no step raises, some region yields data
    and the artifact can be written. *)
Lemma consolidate_region_data_succeeds self host regions days :
  succeeded (consolidate_region_data self host regions days) = true
  <-> (forall r, In r regions -> region_raises self host days r = false)
      /\ (exists r rows, In r regions /\ yields_data self host days r rows)
      /\ to_csv_ok host = true.
Proof.
  unfold consolidate_region_data.
  destruct (forallb (fun r => negb (region_raises self host days r)) regions) eqn:Hall.
  - assert (forall r, In r regions -> region_raises self host days r = false) as Hclean.
    { intros r Hin. rewrite forallb_forall in Hall. apply Hall in Hin.
      by apply negb_true_iff. }
    destruct (region_loop_clean self host days regions [] Hclean) as (msgs & -> & _).
    simpl app.
    destruct (omap (region_frame self host days) regions) as [|frame frames] eqn:Hframes.
    + simpl. split; [done|]. intros (_ & (r & rows & Hin & Hy) & _).
      exfalso.
      assert (is_Some (region_frame self host days r)) as [frame Hf].
      { destruct Hy as [Hrun Hne]. unfold region_frame.
        specialize (Hclean r Hin). unfold region_raises in Hclean.
        destruct (dict_get SUPPORTED_REGIONS r); [|done].
        rewrite Hrun. destruct rows; [done|]. by eexists. }
      assert (frame ∈ omap (region_frame self host days) regions) as Hel
        by (apply list_elem_of_omap; exists r; by rewrite list_elem_of_In).
      rewrite Hframes in Hel. by apply not_elem_of_nil in Hel.
    + assert (frame ∈ omap (region_frame self host days) regions) as Hel
        by (rewrite Hframes; left).
      apply list_elem_of_omap in Hel as (r & Hin%list_elem_of_In & Hf).
      apply region_frame_spec in Hf as (label & rows & _ & Hy & _).
      destruct (to_csv_ok host); simpl; split; try done.
      * intros _. split_and!; eauto.
      * by intros (_ & _ & ?).
  - assert (exists r, In r regions /\ region_raises self host days r = true) as Hr.
    { apply forallb_false_exists in Hall as (r & Hin & Hr%negb_false_iff). eauto. }
    destruct (region_loop_raises self host days regions [] Hr) as (e & msgs & ->).
    simpl. split; [done|]. intros (Hclean & _).
    destruct Hr as (r & Hin & Hr). rewrite (Hclean r Hin) in Hr. done.
Qed.

Lemma consolidate_region_data_clean self host regions days :
  (forall r, In r regions -> region_raises self host days r = false) ->
  to_csv_ok host = true ->
  exists msgs,
    (forall r returncode file label,
       In r regions ->
       subprocess_run host (region_cmd self r days) = RunExits returncode file ->
       returncode <> 0%Z ->
       dict_get SUPPORTED_REGIONS r = Returns label ->
       In (RegionNoData label) msgs)
    /\ consolidate_region_data self host regions days
       = match omap (region_frame self host days) regions with
         | [] => mk_report false None (msgs ++ [AllRegionsEmpty])
         | frames =>
             mk_report true (Some (concat frames))
                       (msgs ++ [Integrated (length (concat frames))])
         end.
Proof.
  intros Hclean Hcsv. unfold consolidate_region_data.
  destruct (region_loop_clean self host days regions [] Hclean) as (msgs & -> & Hw).
  exists msgs. split; [done|].
  destruct (omap (region_frame self host days) regions); simpl; [done|].
  by rewrite Hcsv.
Qed.

(** C8, as stated, fails: one region yields data, the child process of
    the other one runs into the time limit, and the run returns failure
    although not every region is without data. *)
Lemma consolidate_region_data_timeout_fails :
  let regions := ["us-east-1"; "us-west-2"] in
  let report := consolidate_region_data sample_tracker host_timeout regions None in
  regions <> []
  /\ yields_data sample_tracker host_timeout None "us-east-1" [U2_row]
  /\ succeeded report = false
  /\ ~ (succeeded report = false
        <-> forall r, In r regions -> yields_no_data sample_tracker host_timeout None r).
Proof.
  assert (yields_data sample_tracker host_timeout None "us-east-1" [U2_row]) as Hy
    by (split; [reflexivity|discriminate]).
  cbv zeta. split_and!; [discriminate|exact Hy|reflexivity|].
  intros [Hfail _]. apply (Hfail eq_refl "us-east-1" (or_introl eq_refl) _ Hy).
Qed.

(** C8 (amended): when no step of the run raises (every region is a
    supported one, every child process runs to its end, every temporary file
    that exists can be read) and the artifact can be written, the run
    returns failure if and only if every region yields no data; a region
    without data does not keep a run from succeeding in which another region
    yields some; a region whose child process ends with a non-zero status is
    reported with the warning; every record of the artifact carries the
    region it comes from and the label of that region, and every row that a
    region yields is in the artifact. *)
Theorem consolidate_region_data_clean_run self host regions days :
  (forall r, In r regions -> region_raises self host days r = false) ->
  to_csv_ok host = true ->
  let report := consolidate_region_data self host regions days in
  (succeeded report = false
   <-> forall r, In r regions -> yields_no_data self host days r)
  /\ (forall r rows, In r regions -> yields_data self host days r rows ->
        succeeded report = true)
  /\ (forall r returncode file label,
        In r regions ->
        subprocess_run host (region_cmd self r days) = RunExits returncode file ->
        returncode <> 0%Z ->
        dict_get SUPPORTED_REGIONS r = Returns label ->
        In (RegionNoData label) (messages report))
  /\ (forall rows t,
        artifact report = Some rows -> In t rows ->
        In (Region t) regions
        /\ dict_get SUPPORTED_REGIONS (Region t) = Returns (RegionName t)
        /\ exists data, yields_data self host days (Region t) data /\ In (record t) data)
  /\ (forall r data x,
        In r regions -> yields_data self host days r data -> In x data ->
        exists rows t, artifact report = Some rows /\ In t rows
                       /\ record t = x /\ Region t = r).
Proof.
  intros Hclean Hcsv report.
  pose proof (consolidate_region_data_succeeds self host regions days) as Hsucc.
  fold report in Hsucc.
  assert (forall r rows, In r regions -> yields_data self host days r rows ->
            succeeded report = true) as Hyes
    by (intros r rows Hin Hy; apply Hsucc; eauto 6).
  destruct (consolidate_region_data_clean self host regions days Hclean Hcsv)
    as (msgs & Hw & Hrep). fold report in Hrep.
  assert (forall frame, In frame (omap (region_frame self host days) regions) ->
            artifact report = Some (concat (omap (region_frame self host days) regions)))
    as Hart.
  { intros frame Hin. rewrite Hrep.
    by destruct (omap (region_frame self host days) regions). }
  split_and!.
  - split.
    + intros Hfail r Hin rows Hy. rewrite (Hyes r rows Hin Hy) in Hfail. done.
    + intros Hnone. destruct (succeeded report) eqn:Hs; [|done].
      destruct (proj1 Hsucc eq_refl) as (_ & (r & rows & Hin & Hy) & _).
      by apply Hnone in Hy.
  - exact Hyes.
  - intros r rc file label Hin Hrun Hrc Hlabel.
    assert (In (RegionNoData label) msgs) by eauto.
    rewrite Hrep. destruct (omap _ regions); simpl; apply in_or_app; auto.
  - intros rows t Hrows Ht.
    assert (rows = concat (omap (region_frame self host days) regions)) as ->.
    { rewrite Hrep in Hrows.
      destruct (omap (region_frame self host days) regions); [done|].
      by injection Hrows. }
    apply in_concat in Ht as (frame & Hframe & Ht).
    apply list_elem_of_In, list_elem_of_omap in Hframe as (r & Hin%list_elem_of_In & Hf).
    apply region_frame_spec in Hf as (label & data & Hlabel & Hy & ->).
    apply in_map_iff in Ht as (x & <- & Hx). simpl. eauto.
  - intros r data x Hin Hy Hx.
    assert (exists label, dict_get SUPPORTED_REGIONS r = Returns label) as [label Hlabel].
    { specialize (Hclean r Hin). unfold region_raises in Hclean.
      destruct (dict_get SUPPORTED_REGIONS r); [eauto|done]. }
    set (frame := map (fun x => mk_tagged x r label) data).
    assert (In frame (omap (region_frame self host days) regions)) as Hframe.
    { apply list_elem_of_In, list_elem_of_omap. exists r.
      split; [by apply list_elem_of_In|]. apply region_frame_spec. eauto. }
    exists (concat (omap (region_frame self host days) regions)), (mk_tagged x r label).
    split_and!; [by eapply Hart| |done..].
    apply in_concat. exists frame. split; [done|].
    apply in_map_iff. eauto.
Qed.

Lemma consolidate_region_data_clean_run_witness :
  let report :=
    consolidate_region_data sample_tracker host_one_empty ["us-east-1"; "us-west-2"] None in
  succeeded report = true
  /\ In (RegionNoData "US West (Oregon)") (messages report)
  /\ artifact report = Some [mk_tagged U2_row "us-east-1" "US East (N. Virginia)"].
Proof.
  assert (forall r, In r ["us-east-1"; "us-west-2"] ->
            region_raises sample_tracker host_one_empty None r = false) as Hclean
    by (intros r [<-|[<-|[]]]; reflexivity).
  pose proof (consolidate_region_data_clean_run sample_tracker host_one_empty
                ["us-east-1"; "us-west-2"] None Hclean eq_refl) as (_ & Hyes & Hwarn & _).
  cbv zeta. split_and!.
  - apply (Hyes "us-east-1" [U2_row]); [by left|]. split; [reflexivity|discriminate].
  - apply (Hwarn "us-west-2" 1%Z NoFile); [right; by left|reflexivity|discriminate|reflexivity].
  - reflexivity.
Defined.

(** ** The identity cache *)

Lemma Qltb_lt a b : Qltb a b = true <-> (a < b)%Q.
Proof.
  unfold Qltb. rewrite negb_true_iff. split.
  - intros H. apply Qnot_le_lt. intros Hle%Qle_bool_iff. congruence.
  - intros H. destruct (Qle_bool b a) eqn:Hle; [|done].
    apply Qle_bool_iff in Hle. lra.
Qed.

Lemma Qltb_ge a b : Qltb a b = false <-> (b <= a)%Q.
Proof.
  unfold Qltb. rewrite negb_false_iff. apply Qle_bool_iff.
Qed.

Lemma make_info_lookup uid un dn em fn ln t src :
  let r := make_info uid un dn em fn ln t src in
  r !! "user_id" = Some (VStr uid)
  /\ r !! "username" = Some (VStr un)
  /\ r !! "display_name" = Some (VStr dn)
  /\ r !! "email" = Some (VStr em)
  /\ r !! "first_name" = Some (VStr fn)
  /\ r !! "last_name" = Some (VStr ln)
  /\ r !! "cached_at" = Some (VNum t)
  /\ r !! "source" = Some (VStr src).
Proof. unfold make_info. cbv zeta. split_and!; by simplify_map_eq. Qed.

Lemma make_info_keys uid un dn em fn ln t src :
  has_all_keys (make_info uid un dn em fn ln t src).
Proof.
  destruct (make_info_lookup uid un dn em fn ln t src)
    as (H1 & H2 & H3 & H4 & H5 & H6 & H7 & H8).
  intros k Hk. simpl in Hk.
  repeat (destruct Hk as [<-|Hk]; [eauto|]). destruct Hk.
Qed.

Lemma make_info_wf uid un dn em fn ln t src :
  src = "iam_identity_center" \/ src = "fallback" ->
  wf_info (make_info uid un dn em fn ln t src).
Proof.
  intros Hsrc.
  destruct (make_info_lookup uid un dn em fn ln t src)
    as (_ & _ & _ & _ & _ & _ & H7 & H8).
  split_and!; [apply make_info_keys|eauto|].
  unfold known_source. rewrite H8. destruct Hsrc as [-> | ->]; auto.
Qed.

Lemma fresh_entry_fresh now user_id self cached_info :
  user_cache self !! user_id = Some cached_info ->
  fresh now cached_info ->
  fresh_entry now user_id self = Returns (Some cached_info).
Proof.
  intros Hc (t & Ht & Hlt). unfold fresh_entry. rewrite Hc, Ht.
  by apply Qltb_lt in Hlt as ->.
Qed.

Lemma fresh_entry_none now user_id self :
  fresh_entry now user_id self = Returns None <-> no_fresh_entry now user_id self.
Proof.
  unfold fresh_entry, no_fresh_entry. split.
  - destruct (user_cache self !! user_id) as [cached_info|]; [|by left].
    destruct (cached_at_of cached_info) as [t|] eqn:Ht; [|done].
    destruct (Qltb (now - t) TTL) eqn:Hlt; [done|]. intros _. right.
    exists cached_info, t. split_and!; try done. by apply Qltb_ge.
  - intros [->|(cached_info & t & -> & -> & Hge)]; [done|].
    by apply Qltb_ge in Hge as ->.
Qed.

(** the four outcomes of [get_user_info] *)
Lemma get_user_info_cases env user_id self :
  (exists e, fresh_entry (env_now env) user_id self = Raises e
             /\ get_user_info env user_id self = (Raises e, self, []))
  \/ (exists cached_info,
        fresh_entry (env_now env) user_id self = Returns (Some cached_info)
        /\ get_user_info env user_id self = (Returns cached_info, self, []))
  \/ (exists response,
        fresh_entry (env_now env) user_id self = Returns None
        /\ lookup_resolves (env_dir env) user_id self response
        /\ get_user_info env user_id self
           = (Returns (directory_info user_id response (env_stamp env)),
              save_cache (env_save_ok env)
                (cache_store user_id (directory_info user_id response (env_stamp env)) self),
              [DescribeUser (default "" (identity_store_id self)) user_id]))
  \/ (fresh_entry (env_now env) user_id self = Returns None
      /\ lookup_fails (env_dir env) user_id self
      /\ exists calls,
           get_user_info env user_id self
           = (Returns (fallback_info user_id (env_stamp env)), self, calls)
           /\ calls = if connected self
                      then [DescribeUser (default "" (identity_store_id self)) user_id]
                      else []).
Proof.
  unfold get_user_info, lookup_resolves, lookup_fails.
  destruct (fresh_entry (env_now env) user_id self) as [[cached_info|]|e];
    [by eauto| |by eauto].
  destruct (connected self) eqn:Hconn.
  - destruct (describe_user _ _ _) as [response|e] eqn:Hd.
    + right. right. left. eauto.
    + right. right. right. split_and!; eauto.
  - right. right. right. split_and!; eauto.
Qed.

Lemma save_cache_user_cache ok self : user_cache (save_cache ok self) = user_cache self.
Proof. by destruct ok. Qed.

(** C5: for an identifier without a fresh cached record, when the directory
    lookup fails (no client, no store, or a request that raises),
    [get_user_info] returns a record whose source is [fallback] and whose
    user name and display name are "User-" followed by the first eight
    characters of the identifier, and the mapper, cache and cache file
    included, is as before the call; an identifier that had no cached record
    still has none. *)
Theorem get_user_info_fallback env user_id self :
  no_fresh_entry (env_now env) user_id self ->
  lookup_fails (env_dir env) user_id self ->
  exists r calls,
    get_user_info env user_id self = (Returns r, self, calls)
    /\ r !! "source" = Some (VStr "fallback")
    /\ r !! "username" = Some (VStr ("User-" +:+ slice_to 8 user_id))
    /\ r !! "display_name" = Some (VStr ("User-" +:+ slice_to 8 user_id))
    /\ r !! "user_id" = Some (VStr user_id)
    /\ (user_cache self !! user_id = None ->
        user_cache (get_user_info env user_id self).1.2 !! user_id = None).
Proof.
  intros Hstale%fresh_entry_none Hfails.
  destruct (get_user_info_cases env user_id self)
    as [(e & He & _)|[(c & Hc & _)|[(resp & _ & [Hconn Hd] & _)|(_ & _ & calls & Hget & _)]]].
  - congruence.
  - congruence.
  - destruct Hfails as [Hf|[e He]]; congruence.
  - exists (fallback_info user_id (env_stamp env)), calls.
    destruct (make_info_lookup user_id ("User-" +:+ slice_to 8 user_id)
                ("User-" +:+ slice_to 8 user_id) "" "" "" (env_stamp env) "fallback")
      as (H1 & H2 & H3 & _ & _ & _ & _ & H8).
    rewrite Hget. split_and!; done.
Qed.

Lemma get_user_info_fallback_witness :
  exists r calls,
    get_user_info (env_at directory_down 1000) sample_user_id sample_mapper
    = (Returns r, sample_mapper, calls)
    /\ r !! "source" = Some (VStr "fallback")
    /\ r !! "display_name" = Some (VStr "User-1458e458")
    /\ user_cache sample_mapper !! sample_user_id = None.
Proof.
  destruct (get_user_info_fallback (env_at directory_down 1000) sample_user_id sample_mapper)
    as (r & calls & Hget & Hsrc & _ & Hdn & _).
  - left. reflexivity.
  - right. exists ServiceError. reflexivity.
  - exists r, calls. split_and!; [exact Hget|exact Hsrc|exact Hdn|reflexivity].
Defined.

Lemma cached_at_of_directory_info user_id response t :
  cached_at_of (directory_info user_id response t) = Returns t.
Proof.
  unfold cached_at_of, directory_info.
  by destruct (make_info_lookup user_id (default "" (UserName response))
                 (default "" (DisplayName response)) (first_email response)
                 (name_field GivenName response) (name_field FamilyName response)
                 t "iam_identity_center") as (_ & _ & _ & _ & _ & _ & -> & _).
Qed.

Lemma get_user_info_fresh env user_id self cached_info :
  user_cache self !! user_id = Some cached_info ->
  fresh (env_now env) cached_info ->
  get_user_info env user_id self = (Returns cached_info, self, []).
Proof.
  intros Hc Hf. unfold get_user_info. by rewrite (fresh_entry_fresh _ _ _ _ Hc Hf).
Qed.

Lemma get_user_info_resolves env user_id self response :
  no_fresh_entry (env_now env) user_id self ->
  lookup_resolves (env_dir env) user_id self response ->
  get_user_info env user_id self
  = (Returns (directory_info user_id response (env_stamp env)),
     save_cache (env_save_ok env)
       (cache_store user_id (directory_info user_id response (env_stamp env)) self),
     [DescribeUser (default "" (identity_store_id self)) user_id]).
Proof.
  intros Hstale%fresh_entry_none [Hconn Hd]. unfold get_user_info.
  by rewrite Hstale, Hconn, Hd.
Qed.

Lemma connected_save_store ok user_id r self :
  connected (save_cache ok (cache_store user_id r self)) = connected self.
Proof. by destruct ok. Qed.

Lemma store_id_save_store ok user_id r self :
  identity_store_id (save_cache ok (cache_store user_id r self)) = identity_store_id self.
Proof. by destruct ok. Qed.

Lemma lookup_save_store ok user_id r self :
  user_cache (save_cache ok (cache_store user_id r self)) !! user_id = Some r.
Proof. rewrite save_cache_user_cache. simpl. apply lookup_insert_eq. Qed.

(** C6: a cached record younger than 24 hours is returned as it is, the
    mapper is unchanged, and no request goes to the directory.  Hence, when
    a first call resolves an identifier through the directory, that call
    and a second one made within the time to live send exactly one request
    together, and the second returns the record of the first; a call made
    once the time to live has passed sends a new request. *)
Theorem get_user_info_cache_freshness :
  (forall env user_id self cached_info,
     user_cache self !! user_id = Some cached_info ->
     fresh (env_now env) cached_info ->
     get_user_info env user_id self = (Returns cached_info, self, []))
  /\ (forall env1 env2 user_id self response,
        no_fresh_entry (env_now env1) user_id self ->
        lookup_resolves (env_dir env1) user_id self response ->
        (env_now env2 - env_stamp env1 < TTL)%Q ->
        let first := get_user_info env1 user_id self in
        let second := get_user_info env2 user_id first.1.2 in
        length (first.2 ++ second.2) = 1
        /\ second.1.1 = first.1.1
        /\ second.1.2 = first.1.2)
  /\ (forall env1 env3 user_id self response,
        no_fresh_entry (env_now env1) user_id self ->
        lookup_resolves (env_dir env1) user_id self response ->
        (TTL <= env_now env3 - env_stamp env1)%Q ->
        let first := get_user_info env1 user_id self in
        let later := get_user_info env3 user_id first.1.2 in
        later.2 = [DescribeUser (default "" (identity_store_id self)) user_id]).
Proof.
  split_and!.
  - apply get_user_info_fresh.
  - intros env1 env2 user_id self response Hstale Hres Hwin first second.
    subst second first. rewrite (get_user_info_resolves _ _ _ _ Hstale Hres). simpl.
    rewrite (get_user_info_fresh env2 user_id _
               (directory_info user_id response (env_stamp env1))).
    + done.
    + apply lookup_save_store.
    + exists (env_stamp env1). split; [apply cached_at_of_directory_info|done].
  - intros env1 env3 user_id self response Hstale Hres Hexp first later.
    subst later first. rewrite (get_user_info_resolves _ _ _ _ Hstale Hres). simpl.
    set (r := directory_info user_id response (env_stamp env1)).
    set (self1 := save_cache (env_save_ok env1) (cache_store user_id r self)).
    assert (fresh_entry (env_now env3) user_id self1 = Returns None) as Hold.
    { apply fresh_entry_none. right. exists r, (env_stamp env1).
      split_and!; [apply lookup_save_store|apply cached_at_of_directory_info|done]. }
    destruct Hres as [Hconn _].
    unfold get_user_info. rewrite Hold.
    subst self1. rewrite connected_save_store, store_id_save_store, Hconn.
    by destruct (describe_user _ _ _).
Qed.

Lemma get_user_info_cache_freshness_witness :
  let first := get_user_info (env_at sample_directory 1000) sample_user_id sample_mapper in
  let second := get_user_info (env_at sample_directory 50000) sample_user_id first.1.2 in
  let later := get_user_info (env_at sample_directory 90000) sample_user_id first.1.2 in
  length (first.2 ++ second.2) = 1
  /\ second.1.1 = first.1.1
  /\ later.2 = [DescribeUser "d-9067f33d3d" sample_user_id].
Proof.
  assert (no_fresh_entry (env_now (env_at sample_directory 1000)) sample_user_id sample_mapper)
    as Hstale by (left; reflexivity).
  assert (lookup_resolves (env_dir (env_at sample_directory 1000)) sample_user_id
            sample_mapper sample_attrs) as Hres by (split; reflexivity).
  destruct get_user_info_cache_freshness as (_ & Htwo & Hlater).
  cbv zeta. split_and!.
  - refine (proj1 (Htwo (env_at sample_directory 1000) (env_at sample_directory 50000)
                     sample_user_id sample_mapper sample_attrs Hstale Hres _)).
    reflexivity.
  - refine (proj1 (proj2 (Htwo (env_at sample_directory 1000) (env_at sample_directory 50000)
                     sample_user_id sample_mapper sample_attrs Hstale Hres _))).
    reflexivity.
  - refine (Hlater (env_at sample_directory 1000) (env_at sample_directory 90000)
              sample_user_id sample_mapper sample_attrs Hstale Hres _).
    discriminate.
Defined.

(** *** Growth of the cache *)

Lemma cache_store_dom user_id r self :
  dom (user_cache self) ⊆ dom (user_cache (cache_store user_id r self)).
Proof. simpl. rewrite dom_insert_L. set_solver. Qed.

Lemma get_user_info_dom env user_id self :
  dom (user_cache self) ⊆ dom (user_cache (get_user_info env user_id self).1.2).
Proof.
  destruct (get_user_info_cases env user_id self)
    as [(e & _ & ->)|[(c & _ & ->)|[(resp & _ & _ & ->)|(_ & _ & calls & -> & _)]]];
    simpl; try done.
  rewrite save_cache_user_cache. apply cache_store_dom.
Qed.

Lemma bulk_get_users_dom envs user_ids results self :
  dom (user_cache self) ⊆ dom (user_cache (bulk_get_users envs user_ids results self).1.2).
Proof.
  revert envs results self.
  induction user_ids as [|user_id rest IH]; intros envs results self; simpl; [done|].
  pose proof (get_user_info_dom (envs 0) user_id self) as Hget.
  destruct (get_user_info (envs 0) user_id self) as [[[user_info|e] self'] calls];
    simpl in Hget; [|done].
  specialize (IH (fun n => envs (S n)) (<[user_id:=user_info]> results) self').
  destruct (bulk_get_users _ rest _ self') as [[res self''] calls']. simpl in *.
  set_solver.
Qed.

Lemma search_user_by_username_dom env username self :
  dom (user_cache self)
  ⊆ dom (user_cache (search_user_by_username env username self).1.2).
Proof.
  unfold search_user_by_username. destruct (connected self); [|done].
  destruct (list_users _ _ _ _) as [response|]; [|done].
  destruct (default [] (Users response)) as [|user ?]; [done|].
  pose proof (get_user_info_dom env (attr_UserId user) self) as Hget.
  by destruct (get_user_info env (attr_UserId user) self) as [[[?|?] ?] ?].
Qed.

Lemma store_page_dom clock page users self :
  dom (user_cache self) ⊆ dom (user_cache (store_page clock page users self).2).
Proof.
  revert users self. induction page as [|user rest IH]; intros users self; simpl; [done|].
  etrans; [|apply IH]. apply cache_store_dom.
Qed.

Lemma list_pages_dom fuel dir clock save_ok store_id next_token users self :
  dom (user_cache self)
  ⊆ dom (user_cache
           (list_pages fuel dir clock save_ok store_id next_token users self).1.2).
Proof.
  revert next_token users self.
  induction fuel as [|fuel IH]; intros next_token users self; simpl; [done|].
  destruct (list_users _ _ _ _) as [response|]; [|done].
  pose proof (store_page_dom clock (default [] (Users response)) users self) as Hpage.
  destruct (store_page _ _ users self) as [users' self']. simpl in Hpage.
  destruct (truthy (NextToken response)).
  - specialize (IH (NextToken response) users' self').
    destruct (list_pages fuel _ _ _ _ _ users' self') as [[res self''] calls].
    simpl in *. set_solver.
  - simpl. by rewrite save_cache_user_cache.
Qed.

(** C9: no operation of the mapper removes an identifier from the cache:
    after [get_user_info], [bulk_get_users], [search_user_by_username] and
    [list_all_users] (however many pages it has read), the identifiers
    cached before the call are all still cached. *)
Theorem user_cache_grows :
  (forall env user_id self,
     dom (user_cache self) ⊆ dom (user_cache (get_user_info env user_id self).1.2))
  /\ (forall envs user_ids results self,
        dom (user_cache self)
        ⊆ dom (user_cache (bulk_get_users envs user_ids results self).1.2))
  /\ (forall env username self,
        dom (user_cache self)
        ⊆ dom (user_cache (search_user_by_username env username self).1.2))
  /\ (forall fuel dir clock save_ok self,
        dom (user_cache self)
        ⊆ dom (user_cache (list_all_users fuel dir clock save_ok self).1.2)).
Proof.
  split_and!.
  - apply get_user_info_dom.
  - apply bulk_get_users_dom.
  - apply search_user_by_username_dom.
  - intros fuel dir clock save_ok self. unfold list_all_users.
    destruct (connected self); [apply list_pages_dom|done].
Qed.

Example list_all_users_sample :
  dom (user_cache (list_all_users 5 sample_directory (fun _ => 0%Q) true sample_mapper).1.2)
  = {[ sample_user_id ]}.
Proof. vm_compute. reflexivity. Qed.

(** *** Totality of [get_user_info] *)

Lemma wf_info_cached_at r : wf_info r -> exists q, cached_at_of r = Returns q.
Proof. intros (_ & [q Hq] & _). exists q. unfold cached_at_of. by rewrite Hq. Qed.

Lemma fresh_entry_wf now user_id self :
  wf_cache self ->
  fresh_entry now user_id self = Returns None
  \/ exists cached_info,
       fresh_entry now user_id self = Returns (Some cached_info) /\ wf_info cached_info.
Proof.
  intros Hwf. unfold fresh_entry.
  destruct (user_cache self !! user_id) as [cached_info|] eqn:Hc; [|by left].
  destruct (wf_info_cached_at _ (Hwf _ _ Hc)) as [q ->].
  destruct (Qltb _ _); eauto.
Qed.

Lemma wf_cache_store ok user_id r self :
  wf_cache self -> wf_info r -> wf_cache (save_cache ok (cache_store user_id r self)).
Proof.
  intros Hwf Hr uid r'. rewrite save_cache_user_cache. simpl.
  destruct (decide (user_id = uid)) as [->|Hne].
  - rewrite lookup_insert_eq. by intros [= <-].
  - rewrite lookup_insert_ne by done. apply Hwf.
Qed.

(** C10: when every record of the cache is well formed, [get_user_info]
    raises nothing, whatever the identifier, the clock and the directory do
    (answer, exception) and whether or not the mapper has a client and a
    store: it returns a record with the eight fields user_id, username,
    display_name, email, first_name, last_name, cached_at and source, whose
    source is "iam_identity_center" or "fallback"; the cache is well formed
    afterwards. *)
Theorem get_user_info_total env user_id self :
  wf_cache self ->
  exists r self' calls,
    get_user_info env user_id self = (Returns r, self', calls)
    /\ has_all_keys r
    /\ known_source r
    /\ wf_cache self'.
Proof.
  intros Hwf.
  destruct (get_user_info_cases env user_id self)
    as [(e & He & _)|[(c & Hc & ->)|[(resp & _ & _ & ->)|(_ & _ & calls & -> & _)]]].
  - destruct (fresh_entry_wf (env_now env) user_id self Hwf) as [|(c & ? & _)]; congruence.
  - destruct (fresh_entry_wf (env_now env) user_id self Hwf) as [|(c' & Hc' & Hwfc)];
      [congruence|].
    assert (c' = c) as -> by congruence.
    destruct Hwfc as (Hkeys & _ & Hsrc). by exists c, self, [].
  - assert (wf_info (directory_info user_id resp (env_stamp env))) as Hr
      by (unfold directory_info; apply make_info_wf; left; reflexivity).
    do 3 eexists. split; [done|].
    destruct Hr as (Hkeys & Hq & Hsrc). split_and!; [done..|].
    apply wf_cache_store; [done|]. by split_and!.
  - assert (wf_info (fallback_info user_id (env_stamp env))) as (Hkeys & _ & Hsrc)
      by (unfold fallback_info; apply make_info_wf; right; reflexivity).
    exists (fallback_info user_id (env_stamp env)), self, calls.
    split_and!; [reflexivity|assumption..].
Qed.

Lemma get_user_info_total_witness :
  exists r self' calls,
    get_user_info (env_at sample_directory 1000) sample_user_id sample_mapper
    = (Returns r, self', calls)
    /\ has_all_keys r
    /\ known_source r.
Proof.
  destruct (get_user_info_total (env_at sample_directory 1000) sample_user_id sample_mapper)
    as (r & self' & calls & Hget & Hkeys & Hsrc & _).
  - intros uid r Hr. discriminate Hr.
  - exists r, self', calls. split_and!; assumption.
Defined.

(** without the premise the call can raise: a time stamp that is text *)
Example get_user_info_raises_on_text_stamp :
  get_user_info (env_at sample_directory 1000) "u"
    (mk_mapper true (Some "d-1") {[ "u" := {[ "cached_at" := VStr "yesterday" ]} ]} Absent)
  = (Raises TypeError,
     mk_mapper true (Some "d-1") {[ "u" := {[ "cached_at" := VStr "yesterday" ]} ]} Absent,
     []).
Proof. vm_compute. reflexivity. Qed.

(** * Further properties *)

(** ** The mapper: construction *)




(** ** The mapper: what a lookup returns *)

Lemma get_user_info_wf_returns env user_id self :
  wf_cache self ->
  exists r self' calls,
    get_user_info env user_id self = (Returns r, self', calls)
    /\ wf_info r /\ wf_cache self' /\ length calls <= 1.
Proof.
  intros Hwf.
  destruct (get_user_info_cases env user_id self)
    as [(e & He & _)|[(c & Hc & ->)|[(resp & _ & _ & ->)|(_ & _ & calls & -> & ->)]]].
  - destruct (fresh_entry_wf (env_now env) user_id self Hwf) as [|(c & ? & _)]; congruence.
  - destruct (fresh_entry_wf (env_now env) user_id self Hwf) as [|(c' & Hc' & Hwfc)];
      [congruence|].
    assert (c' = c) as -> by congruence.
    exists c, self, []. split_and!; simpl; auto.
  - assert (wf_info (directory_info user_id resp (env_stamp env))) as Hr
      by (unfold directory_info; apply make_info_wf; left; reflexivity).
    do 3 eexists. split_and!; [reflexivity|done| |simpl; lia].
    by apply wf_cache_store.
  - assert (wf_info (fallback_info user_id (env_stamp env))) as Hr
      by (unfold fallback_info; apply make_info_wf; right; reflexivity).
    do 3 eexists. split_and!; [reflexivity|done..|].
    destruct (connected self); simpl; lia.
Qed.

(** X2: whatever [get_user_info] returns is, after the call, the record the
    cache holds for the identifier, or else the fallback record built for
    it; a fallback is returned only while the cache has no fresh record. *)
Theorem get_user_info_cached_or_fallback env user_id self r self' calls :
  get_user_info env user_id self = (Returns r, self', calls) ->
  user_cache self' !! user_id = Some r
  \/ (r = fallback_info user_id (env_stamp env) /\ self' = self
      /\ fresh_entry (env_now env) user_id self = Returns None).
Proof.
  intros Hget.
  destruct (get_user_info_cases env user_id self)
    as [(e & _ & Hg)|[(c & Hc & Hg)|[(resp & _ & _ & Hg)|(Hn & _ & calls' & Hg & _)]]];
    rewrite Hg in Hget; simplify_eq.
  - left. unfold fresh_entry in Hc.
    destruct (user_cache self' !! user_id) as [c'|]; [|done].
    destruct (cached_at_of c'); [|done]. destruct (Qltb _ _); congruence.
  - left. apply lookup_save_store.
  - by right.
Qed.

Lemma get_user_info_cached_or_fallback_witness :
  exists r self' calls,
    get_user_info (env_at sample_directory 1000) sample_user_id sample_mapper
    = (Returns r, self', calls)
    /\ user_cache self' !! sample_user_id = Some r.
Proof.
  eexists _, _, _. split; [reflexivity|].
  destruct (get_user_info_cached_or_fallback (env_at sample_directory 1000)
              sample_user_id sample_mapper _ _ _ eq_refl) as [H|(H & _)].
  - exact H.
  - exfalso. apply (f_equal (fun r => r !! "source")) in H. vm_compute in H. discriminate H.
Defined.

Lemma truthy_user_prefix user_id :
  value_truthy (VStr ("User-" +:+ slice_to 8 user_id)) = true.
Proof. reflexivity. Qed.

(** X3: with a well-formed cache [get_display_name] never raises and never
    returns an empty name: the value it returns is true in Python's sense (a
    text that is not empty). *)
Theorem get_display_name_not_empty env user_id self :
  wf_cache self ->
  exists v self' calls,
    get_display_name env user_id self = (Returns v, self', calls)
    /\ value_truthy v = true.
Proof.
  intros Hwf.
  destruct (get_user_info_wf_returns env user_id self Hwf)
    as (r & self' & calls & Hget & (Hkeys & _ & _) & _ & _).
  unfold get_display_name, info_get. rewrite Hget.
  destruct (Hkeys "display_name") as [dn ->]; [simpl; auto|].
  destruct (value_truthy dn) eqn:Hdn; [by eauto|].
  destruct (Hkeys "username") as [un ->]; [simpl; auto|].
  destruct (value_truthy un) eqn:Hun; [by eauto|].
  eauto using truthy_user_prefix.
Qed.

Lemma get_display_name_not_empty_witness :
  exists v self' calls,
    get_display_name (env_at sample_directory 1000) sample_user_id sample_mapper
    = (Returns v, self', calls)
    /\ value_truthy v = true.
Proof.
  apply get_display_name_not_empty. intros uid r Hr. discriminate Hr.
Defined.

(** X4: when the lookup of an identifier without a fresh cached record
    fails, [get_display_name] gives "User-" followed by the first eight
    characters of the identifier and [get_email] gives the empty text, and
    neither changes the mapper. *)
Theorem getters_on_fallback env user_id self :
  no_fresh_entry (env_now env) user_id self ->
  lookup_fails (env_dir env) user_id self ->
  exists calls,
    get_display_name env user_id self
    = (Returns (VStr ("User-" +:+ slice_to 8 user_id)), self, calls)
    /\ get_email env user_id self = (Returns (VStr ""), self, calls).
Proof.
  intros Hstale%fresh_entry_none Hfails.
  destruct (get_user_info_cases env user_id self)
    as [(e & He & _)|[(c & Hc & _)|[(resp & _ & [Hconn Hd] & _)|(_ & _ & calls & Hget & _)]]].
  - congruence.
  - congruence.
  - destruct Hfails as [Hf|[e He]]; congruence.
  - exists calls. unfold get_display_name, get_email, info_get. rewrite Hget.
    destruct (make_info_lookup user_id ("User-" +:+ slice_to 8 user_id)
                ("User-" +:+ slice_to 8 user_id) "" "" "" (env_stamp env) "fallback")
      as (_ & _ & H3 & H4 & _).
    unfold fallback_info. cbv zeta in H3, H4. rewrite H3, H4. done.
Qed.

Lemma getters_on_fallback_witness :
  exists calls,
    get_display_name (env_at directory_down 1000) sample_user_id sample_mapper
    = (Returns (VStr "User-1458e458"), sample_mapper, calls)
    /\ get_email (env_at directory_down 1000) sample_user_id sample_mapper
       = (Returns (VStr ""), sample_mapper, calls).
Proof.
  apply (getters_on_fallback (env_at directory_down 1000) sample_user_id sample_mapper).
  - left. reflexivity.
  - right. exists ServiceError. reflexivity.
Defined.

(** ** The mapper: what the cache holds *)

Lemma has_source_make_info uid un dn em fn ln t src name :
  has_source name (make_info uid un dn em fn ln t src) = String.eqb src name.
Proof.
  unfold has_source.
  by destruct (make_info_lookup uid un dn em fn ln t src)
    as (_ & _ & _ & _ & _ & _ & _ & ->).
Qed.

Section CacheInvariant.

(** a property of records that every record written from a directory answer
    has *)
Variable P : info -> Prop.
Hypothesis P_directory : forall user_id response t, P (directory_info user_id response t).

Lemma cache_all_store ok user_id response t self :
  cache_all P self ->
  cache_all P (save_cache ok (cache_store user_id (directory_info user_id response t) self)).
Proof.
  intros Hall uid r. rewrite save_cache_user_cache. simpl.
  destruct (decide (user_id = uid)) as [->|Hne].
  - rewrite lookup_insert_eq. intros [= <-]. apply P_directory.
  - rewrite lookup_insert_ne by done. apply Hall.
Qed.

Lemma cache_all_get env user_id self :
  cache_all P self -> cache_all P (get_user_info env user_id self).1.2.
Proof.
  intros Hall.
  destruct (get_user_info_cases env user_id self)
    as [(e & _ & ->)|[(c & _ & ->)|[(resp & _ & _ & ->)|(_ & _ & calls & -> & _)]]];
    simpl; try done.
  by apply cache_all_store.
Qed.

Lemma cache_all_bulk envs user_ids results self :
  cache_all P self -> cache_all P (bulk_get_users envs user_ids results self).1.2.
Proof.
  revert envs results self.
  induction user_ids as [|user_id rest IH]; intros envs results self Hall; simpl; [done|].
  pose proof (cache_all_get (envs 0) user_id self Hall) as Hget.
  destruct (get_user_info (envs 0) user_id self) as [[[user_info|e] self'] calls];
    simpl in Hget; [|done].
  specialize (IH (fun n => envs (S n)) (<[user_id:=user_info]> results) self' Hget).
  by destruct (bulk_get_users _ rest _ self') as [[res self''] calls'].
Qed.

Lemma cache_all_search env username self :
  cache_all P self -> cache_all P (search_user_by_username env username self).1.2.
Proof.
  intros Hall. unfold search_user_by_username. destruct (connected self); [|done].
  destruct (list_users _ _ _ _) as [response|]; [|done].
  destruct (default [] (Users response)) as [|user ?]; [done|].
  pose proof (cache_all_get env (attr_UserId user) self Hall) as Hget.
  by destruct (get_user_info env (attr_UserId user) self) as [[[?|?] ?] ?].
Qed.

Lemma cache_all_store_page clock page users self :
  cache_all P self -> cache_all P (store_page clock page users self).2.
Proof.
  revert users self. induction page as [|user rest IH]; intros users self Hall; simpl;
    [done|].
  apply IH. by apply (cache_all_store false).
Qed.

Lemma cache_all_list_pages fuel dir clock save_ok store_id next_token users self :
  cache_all P self ->
  cache_all P (list_pages fuel dir clock save_ok store_id next_token users self).1.2.
Proof.
  revert next_token users self.
  induction fuel as [|fuel IH]; intros next_token users self Hall; simpl; [done|].
  destruct (list_users _ _ _ _) as [response|]; [|done].
  pose proof (cache_all_store_page clock (default [] (Users response)) users self Hall)
    as Hpage.
  destruct (store_page _ _ users self) as [users' self']. simpl in Hpage.
  destruct (truthy (NextToken response)).
  - specialize (IH (NextToken response) users' self' Hpage).
    by destruct (list_pages fuel _ _ _ _ _ users' self') as [[res self''] calls].
  - simpl. intros uid r. rewrite save_cache_user_cache. apply Hpage.
Qed.

Lemma cache_all_list_all fuel dir clock save_ok self :
  cache_all P self -> cache_all P (list_all_users fuel dir clock save_ok self).1.2.
Proof.
  intros Hall. unfold list_all_users.
  destruct (connected self); [by apply cache_all_list_pages|done].
Qed.

End CacheInvariant.

(** X5: no operation of the mapper ever stores a fallback record: when the
    cache holds none before [get_user_info], [bulk_get_users],
    [search_user_by_username] or [list_all_users], it holds none after. *)
Theorem fallback_never_cached :
  (forall env user_id self,
     no_fallback_cached self -> no_fallback_cached (get_user_info env user_id self).1.2)
  /\ (forall envs user_ids results self,
        no_fallback_cached self ->
        no_fallback_cached (bulk_get_users envs user_ids results self).1.2)
  /\ (forall env username self,
        no_fallback_cached self ->
        no_fallback_cached (search_user_by_username env username self).1.2)
  /\ (forall fuel dir clock save_ok self,
        no_fallback_cached self ->
        no_fallback_cached (list_all_users fuel dir clock save_ok self).1.2).
Proof.
  assert (forall user_id response t,
            has_source "fallback" (directory_info user_id response t) = false) as Hd
    by (intros; unfold directory_info; by rewrite has_source_make_info).
  split_and!; intros.
  - by apply (cache_all_get (fun r => has_source "fallback" r = false)).
  - by apply (cache_all_bulk (fun r => has_source "fallback" r = false)).
  - by apply (cache_all_search (fun r => has_source "fallback" r = false)).
  - by apply (cache_all_list_all (fun r => has_source "fallback" r = false)).
Qed.

Lemma fallback_never_cached_witness :
  no_fallback_cached
    (get_user_info (env_at directory_down 1000) sample_user_id sample_mapper).1.2.
Proof.
  apply (proj1 fallback_never_cached). intros uid r Hr. discriminate Hr.
Defined.

(** X6: a well-formed cache stays well formed under every operation of the
    mapper, so that the lookups that follow do not raise either. *)
Theorem wf_cache_preserved :
  (forall env user_id self,
     wf_cache self -> wf_cache (get_user_info env user_id self).1.2)
  /\ (forall envs user_ids results self,
        wf_cache self -> wf_cache (bulk_get_users envs user_ids results self).1.2)
  /\ (forall env username self,
        wf_cache self -> wf_cache (search_user_by_username env username self).1.2)
  /\ (forall fuel dir clock save_ok self,
        wf_cache self -> wf_cache (list_all_users fuel dir clock save_ok self).1.2).
Proof.
  assert (forall user_id response t, wf_info (directory_info user_id response t)) as Hd
    by (intros; unfold directory_info; apply make_info_wf; left; reflexivity).
  split_and!; intros.
  - by apply (cache_all_get wf_info).
  - by apply (cache_all_bulk wf_info).
  - by apply (cache_all_search wf_info).
  - by apply (cache_all_list_all wf_info).
Qed.

Lemma wf_cache_preserved_witness :
  wf_cache (list_all_users 5 sample_directory (fun _ => 0%Q) true sample_mapper).1.2.
Proof.
  apply (proj2 (proj2 (proj2 wf_cache_preserved))). intros uid r Hr. discriminate Hr.
Defined.

(** *** [get_cache_stats] *)






Example get_cache_stats_sample :
  get_cache_stats (get_user_info (env_at sample_directory 1000) sample_user_id sample_mapper).1.2
  = mk_stats 1 1 0 true.
Proof. vm_compute. reflexivity. Qed.

(** an empty store identifier: reported as connected, yet no request is sent *)
Example get_cache_stats_empty_store :
  identity_store_connected (get_cache_stats (mk_mapper true (Some "") ∅ Absent)) = true
  /\ connected (mk_mapper true (Some "") ∅ Absent) = false.
Proof. split; reflexivity. Qed.

(** ** The mapper: lookups in bulk *)

Lemma bulk_get_users_other envs user_ids results self res self' calls uid :
  bulk_get_users envs user_ids results self = (Returns res, self', calls) ->
  ~ In uid user_ids -> res !! uid = results !! uid.
Proof.
  revert envs results self calls.
  induction user_ids as [|user_id rest IH]; intros envs results self calls; simpl.
  - by intros [= <- _ _].
  - destruct (get_user_info (envs 0) user_id self) as [[[user_info|e] self1] calls1];
      [|done].
    destruct (bulk_get_users _ rest _ self1) as [[res2 self2] calls2] eqn:Hrest.
    intros [= -> <- <-] Hnot.
    rewrite (IH _ _ _ _ Hrest) by tauto.
    apply lookup_insert_ne. tauto.
Qed.

(** X8: while the directory cannot be reached, fallbacks are not remembered:
    for a mapper with a client and a store, [bulk_get_users] over identifiers
    that are not cached sends one request per identifier of the list, an
    identifier listed twice being asked twice, leaves the mapper as it was,
    and maps every identifier to a fallback record. *)
Theorem bulk_get_users_directory_down envs user_ids results self :
  connected self = true ->
  (forall n, directory_unreachable (env_dir (envs n))) ->
  (forall user_id, In user_id user_ids -> user_cache self !! user_id = None) ->
  exists res,
    bulk_get_users envs user_ids results self
    = (Returns res, self,
       map (DescribeUser (default "" (identity_store_id self))) user_ids)
    /\ forall user_id, In user_id user_ids ->
         exists t, res !! user_id = Some (fallback_info user_id t).
Proof.
  intros Hconn. revert envs results.
  induction user_ids as [|user_id rest IH]; intros envs results Hdown Hnone.
  - exists results. split; [done|]. intros ? [].
  - assert (get_user_info (envs 0) user_id self
            = (Returns (fallback_info user_id (env_stamp (envs 0))), self,
               [DescribeUser (default "" (identity_store_id self)) user_id])) as Hget.
    { unfold get_user_info, fresh_entry. rewrite (Hnone user_id) by (by left).
      rewrite Hconn.
      by destruct (Hdown 0 (default "" (identity_store_id self)) user_id) as [e ->]. }
    destruct (IH (fun n => envs (S n))
                (<[user_id := fallback_info user_id (env_stamp (envs 0))]> results))
      as (res & Hrest & Hres).
    { intros n. apply Hdown. }
    { intros uid Hin. apply Hnone. by right. }
    exists res. split.
    + cbn [bulk_get_users]. rewrite Hget, Hrest. done.
    + intros uid [<-|Hin]; [|by apply Hres].
      destruct (in_dec string_dec user_id rest) as [Hin|Hnot]; [by apply Hres|].
      exists (env_stamp (envs 0)).
      rewrite (bulk_get_users_other _ _ _ _ _ _ _ user_id Hrest Hnot).
      apply lookup_insert_eq.
Qed.

Lemma bulk_get_users_directory_down_witness :
  exists res,
    bulk_get_users (fun _ => env_at directory_down 1000)
      [sample_user_id; sample_user_id; sample_user_id] ∅ sample_mapper
    = (Returns res, sample_mapper,
       [DescribeUser "d-9067f33d3d" sample_user_id;
        DescribeUser "d-9067f33d3d" sample_user_id;
        DescribeUser "d-9067f33d3d" sample_user_id]).
Proof.
  destruct (bulk_get_users_directory_down (fun _ => env_at directory_down 1000)
              [sample_user_id; sample_user_id; sample_user_id] ∅ sample_mapper)
    as (res & Hres & _).
  - reflexivity.
  - intros n store_id user_id. exists ServiceError. reflexivity.
  - intros user_id _. reflexivity.
  - exists res. exact Hres.
Defined.

(** X9: with a well-formed cache [bulk_get_users] does not raise; the
    mapping it returns holds a well-formed record for every identifier asked
    for and is unchanged elsewhere, and it sends at most one request per
    identifier of the list. *)
Theorem bulk_get_users_covers envs user_ids results self :
  wf_cache self ->
  exists res self' calls,
    bulk_get_users envs user_ids results self = (Returns res, self', calls)
    /\ (forall user_id, In user_id user_ids ->
          exists r, res !! user_id = Some r /\ wf_info r)
    /\ (forall user_id, ~ In user_id user_ids -> res !! user_id = results !! user_id)
    /\ length calls <= length user_ids.
Proof.
  revert envs results self.
  induction user_ids as [|user_id rest IH]; intros envs results self Hwf.
  - exists results, self, []. split_and!; simpl; try done.
  - destruct (get_user_info_wf_returns (envs 0) user_id self Hwf)
      as (r & self1 & calls1 & Hget & Hr & Hwf1 & Hlen1).
    destruct (IH (fun n => envs (S n)) (<[user_id := r]> results) self1 Hwf1)
      as (res & self2 & calls2 & Hrest & Hcov & Hother & Hlen2).
    exists res, self2, (calls1 ++ calls2).
    assert (bulk_get_users envs (user_id :: rest) results self
            = (Returns res, self2, calls1 ++ calls2)) as Hbulk
      by (cbn [bulk_get_users]; by rewrite Hget, Hrest).
    split_and!; [done| | |rewrite length_app; simpl; lia].
    + intros uid [<-|Hin]; [|by apply Hcov].
      destruct (in_dec string_dec user_id rest) as [Hin|Hnot]; [by apply Hcov|].
      exists r. split; [|done]. rewrite (Hother _ Hnot). apply lookup_insert_eq.
    + intros uid Hnot. by apply (bulk_get_users_other _ _ _ _ _ _ _ uid Hbulk).
Qed.

Lemma bulk_get_users_covers_witness :
  exists res self' calls,
    bulk_get_users (fun _ => env_at sample_directory 1000) [sample_user_id; "u2"] ∅
      sample_mapper
    = (Returns res, self', calls)
    /\ is_Some (res !! "u2").
Proof.
  destruct (bulk_get_users_covers (fun _ => env_at sample_directory 1000)
              [sample_user_id; "u2"] ∅ sample_mapper)
    as (res & self' & calls & Hres & Hcov & _).
  - intros uid r Hr. discriminate Hr.
  - exists res, self', calls. split; [exact Hres|].
    destruct (Hcov "u2") as (r & Hr & _); [right; by left|]. by exists r.
Defined.

(** ** The mapper: persistence *)

Lemma load_cache_saved self c i :
  cache_saved self ->
  user_cache (load_cache (mk_mapper c i ∅ (cache_file self))) = user_cache self.
Proof. unfold cache_saved, load_cache. simpl. by intros ->. Qed.

(** X10: what one process resolves, the next one finds: after a lookup that
    resolves an identifier and can write the cache file, a mapper created
    from that file holds the whole cache of the first one, and its lookup of
    the identifier within the time to live returns the stored record without
    a request to the directory. *)
Theorem resolved_user_survives_restart env env2 user_id self response
    sso_ok identitystore_ok list_instances :
  no_fresh_entry (env_now env) user_id self ->
  lookup_resolves (env_dir env) user_id self response ->
  env_save_ok env = true ->
  (env_now env2 - env_stamp env < TTL)%Q ->
  let first := get_user_info env user_id self in
  let restarted := new_mapper (cache_file first.1.2) sso_ok identitystore_ok list_instances in
  cache_saved first.1.2
  /\ user_cache restarted = user_cache first.1.2
  /\ get_user_info env2 user_id restarted = (first.1.1, restarted, []).
Proof.
  intros Hstale Hres Hsave Hwin first restarted. subst restarted first.
  rewrite (get_user_info_resolves _ _ _ _ Hstale Hres). rewrite Hsave. simpl.
  set (r := directory_info user_id response (env_stamp env)).
  assert (user_cache (new_mapper (Stored (<[user_id:=r]> (user_cache self)))
                        sso_ok identitystore_ok list_instances)
          = <[user_id:=r]> (user_cache self)) as Hcache.
  { unfold new_mapper, initialize_clients, load_cache. simpl.
    by destruct (sso_ok && identitystore_ok). }
  split_and!; [done|done|].
  apply get_user_info_fresh.
  - rewrite Hcache. apply lookup_insert_eq.
  - exists (env_stamp env). split; [apply cached_at_of_directory_info|done].
Qed.

Lemma resolved_user_survives_restart_witness :
  let first := get_user_info (env_at sample_directory 1000) sample_user_id sample_mapper in
  let restarted := new_mapper (cache_file first.1.2) false false (Raises ServiceError) in
  get_user_info (env_at directory_down 50000) sample_user_id restarted
  = (first.1.1, restarted, []).
Proof.
  refine (proj2 (proj2 (resolved_user_survives_restart
            (env_at sample_directory 1000) (env_at directory_down 50000)
            sample_user_id sample_mapper sample_attrs false false (Raises ServiceError)
            _ _ eq_refl _))).
  - left. reflexivity.
  - split; reflexivity.
  - reflexivity.
Defined.

(** a cache file that cannot be written: the record is cached, not saved *)
Example resolved_not_saved :
  let m := (get_user_info (mk_env sample_directory 0 0 false) sample_user_id sample_mapper).1.2 in
  is_Some (user_cache m !! sample_user_id) /\ cache_file m = Absent.
Proof.
  cbv zeta.
  rewrite (get_user_info_resolves (mk_env sample_directory 0 0 false) sample_user_id
             sample_mapper sample_attrs); [|by left|by split].
  split; [|reflexivity]. cbn [fst snd]. rewrite lookup_save_store. eauto.
Qed.

(** ** The mapper: listing and search *)

Lemma listed_record_store user_id r self r0 :
  listed_record self r0 -> listed_record (cache_store user_id r self) r0.
Proof.
  intros (uid & Hid & Hc & Hs). exists uid. split_and!; [done| |done].
  simpl. destruct (decide (user_id = uid)) as [->|Hne].
  - rewrite lookup_insert_eq. eauto.
  - by rewrite lookup_insert_ne.
Qed.

Lemma listed_record_directory_info user response t self :
  listed_record
    (cache_store (attr_UserId user) (directory_info (attr_UserId user) response t) self)
    (directory_info (attr_UserId user) response t).
Proof.
  exists (attr_UserId user). split_and!.
  - unfold directory_info.
    by destruct (make_info_lookup (attr_UserId user) (default "" (UserName response))
                   (default "" (DisplayName response)) (first_email response)
                   (name_field GivenName response) (name_field FamilyName response)
                   t "iam_identity_center") as (-> & _).
  - simpl. rewrite lookup_insert_eq. eauto.
  - unfold directory_info. by rewrite has_source_make_info.
Qed.

Lemma store_page_listed clock page users self :
  Forall (listed_record self) users ->
  Forall (listed_record (store_page clock page users self).2)
         (store_page clock page users self).1.
Proof.
  revert users self. induction page as [|user rest IH]; intros users self Hall; simpl;
    [done|].
  apply IH. apply Forall_app. split.
  - eapply Forall_impl; [exact Hall|]. intros r0. apply listed_record_store.
  - constructor; [|constructor]. apply listed_record_directory_info.
Qed.

Lemma listed_record_save ok self r :
  listed_record self r -> listed_record (save_cache ok self) r.
Proof.
  intros (uid & ? & ? & ?). exists uid. by rewrite save_cache_user_cache.
Qed.

Lemma list_pages_listed fuel dir clock save_ok store_id next_token users self
    users' self' calls :
  Forall (listed_record self) users ->
  list_pages fuel dir clock save_ok store_id next_token users self
  = (Listed users', self', calls) ->
  Forall (listed_record self') users'
  /\ (save_ok = true -> cache_saved self')
  /\ length calls <= fuel.
Proof.
  revert next_token users self calls.
  induction fuel as [|fuel IH]; intros next_token users self calls Hall; simpl; [done|].
  destruct (list_users _ _ _ _) as [response|]; [|done].
  pose proof (store_page_listed clock (default [] (Users response)) users self Hall)
    as Hpage.
  destruct (store_page _ _ users self) as [users1 self1]. simpl in Hpage.
  destruct (truthy (NextToken response)).
  - destruct (list_pages fuel _ _ _ _ _ users1 self1) as [[res self2] calls2] eqn:Hrest.
    intros [= -> <- <-].
    destruct (IH _ _ _ _ Hpage Hrest) as (? & ? & ?). split_and!; [done..|simpl; lia].
  - intros [= <- <- <-]. split_and!.
    + eapply Forall_impl; [exact Hpage|]. intros r. apply listed_record_save.
    + by intros ->.
    + simpl. lia.
Qed.

Lemma list_pages_more_fuel fuel fuel' dir clock save_ok store_id next_token users self
    res self' calls :
  list_pages fuel dir clock save_ok store_id next_token users self = (res, self', calls) ->
  res <> StillListing ->
  fuel <= fuel' ->
  list_pages fuel' dir clock save_ok store_id next_token users self = (res, self', calls).
Proof.
  revert fuel' next_token users self calls.
  induction fuel as [|fuel IH]; intros fuel' next_token users self calls; simpl.
  - by intros [= <- _ _].
  - intros Hrun Hres Hle. destruct fuel' as [|fuel']; [lia|]. simpl.
    destruct (list_users _ _ _ _) as [response|]; [|done].
    destruct (store_page _ _ users self) as [users1 self1].
    destruct (truthy (NextToken response)); [|done].
    destruct (list_pages fuel _ _ _ _ _ users1 self1) as [[res2 self2] calls2] eqn:Hrest.
    injection Hrun as -> <- <-.
    rewrite (IH fuel' _ _ _ _ Hrest Hres) by lia. done.
Qed.

(** X11: when [list_all_users] ends with a list of users, every record of
    the list is a directory record whose identifier is cached afterwards; if
    the mapper is connected and the cache file can be written, the file holds
    the cache; the loop has sent at most as many requests as the bound on
    pages allows, and a larger bound gives the same outcome. *)
Theorem list_all_users_listed fuel dir clock save_ok self users self' calls :
  list_all_users fuel dir clock save_ok self = (Listed users, self', calls) ->
  (forall r, In r users -> listed_record self' r)
  /\ (connected self = true -> save_ok = true -> cache_saved self')
  /\ length calls <= fuel
  /\ (forall fuel', fuel <= fuel' ->
        list_all_users fuel' dir clock save_ok self = (Listed users, self', calls)).
Proof.
  unfold list_all_users. destruct (connected self) eqn:Hconn.
  - intros Hrun.
    destruct (list_pages_listed _ _ _ _ _ _ _ _ _ _ _ (List.Forall_nil _) Hrun)
      as (Hall & Hsaved & Hlen).
    split_and!; [|auto|done|].
    + intros r Hin. rewrite Forall_forall in Hall. by apply Hall, list_elem_of_In.
    + intros fuel' Hle. by apply (list_pages_more_fuel fuel).
  - intros [= <- <- <-]. split_and!; [intros ? []|done|simpl; lia|done].
Qed.

Lemma list_all_users_listed_witness :
  exists users self' calls,
    list_all_users 1 sample_directory (fun _ => 0%Q) true sample_mapper
    = (Listed users, self', calls)
    /\ cache_saved self'
    /\ list_all_users 7 sample_directory (fun _ => 0%Q) true sample_mapper
       = (Listed users, self', calls).
Proof.
  eexists _, _, _. split; [reflexivity|].
  destruct (list_all_users_listed 1 sample_directory (fun _ => 0%Q) true sample_mapper
              _ _ _ eq_refl) as (_ & Hsaved & _ & Hmore).
  split; [by apply Hsaved|]. apply Hmore. lia.
Defined.

Lemma get_user_info_raises_unchanged env user_id self e self' calls :
  get_user_info env user_id self = (Raises e, self', calls) -> self' = self /\ calls = [].
Proof.
  intros Hget.
  destruct (get_user_info_cases env user_id self)
    as [(e' & _ & Hg)|[(c & _ & Hg)|[(resp & _ & _ & Hg)|(_ & _ & calls' & Hg & _)]]];
    rewrite Hg in Hget; by simplify_eq.
Qed.

Lemma get_user_info_calls_le env user_id self :
  length (get_user_info env user_id self).2 <= 1.
Proof.
  destruct (get_user_info_cases env user_id self)
    as [(e' & _ & ->)|[(c & _ & ->)|[(resp & _ & _ & ->)|(_ & _ & calls' & -> & ->)]]];
    simpl; try lia.
  destruct (connected self); simpl; lia.
Qed.

(** X12: [search_user_by_username] raises nothing.  Without client or store
    it answers [None] at once; otherwise it always asks the directory for
    the filtered list first, cached or not, and sends at most one more
    request; a search that finds nothing leaves the mapper as it was. *)
Theorem search_user_by_username_requests env username self :
  let found := (search_user_by_username env username self).1.1 in
  let self' := (search_user_by_username env username self).1.2 in
  let calls := (search_user_by_username env username self).2 in
  (connected self = false -> found = None /\ self' = self /\ calls = [])
  /\ (connected self = true ->
      exists rest,
        calls = ListUsers (default "" (identity_store_id self)) (Some username) None :: rest
        /\ length rest <= 1)
  /\ (found = None -> self' = self).
Proof.
  cbv zeta. unfold search_user_by_username.
  destruct (connected self); (split_and!; [done|intros ?|]; try done).
  - destruct (list_users _ _ _ _) as [response|]; [|exists []; split; [done|simpl; lia]].
    destruct (default [] (Users response)) as [|user ?];
      [exists []; split; [done|simpl; lia]|].
    pose proof (get_user_info_calls_le env (attr_UserId user) self) as Hle.
    destruct (get_user_info env (attr_UserId user) self) as [[[?|?] ?] calls];
      exists calls; by split.
  - destruct (list_users _ _ _ _) as [response|]; [|done].
    destruct (default [] (Users response)) as [|user ?]; [done|].
    destruct (get_user_info env (attr_UserId user) self) as [[[?|e] self'] calls] eqn:Hget;
      [done|].
    intros _. simpl. by apply get_user_info_raises_unchanged in Hget as [-> _].
Qed.

Example search_user_by_username_sample :
  (search_user_by_username (env_at sample_directory 1000) "bedrock_user1" sample_mapper).2
  = [ListUsers "d-9067f33d3d" (Some "bedrock_user1") None;
     DescribeUser "d-9067f33d3d" sample_user_id].
Proof. vm_compute. reflexivity. Qed.

(** ** The consolidator: further properties *)

Section StableSortMore.
Context {A : Type} (lt : A -> A -> bool).

Lemma stable_sort_of_sorted l :
  Sorted (not_after lt) l -> stable_sort lt l = l.
Proof.
  induction 1 as [|x l Hs IH Hhd]; [done|].
  unfold stable_sort in *. simpl. rewrite IH.
  destruct Hhd as [|y l' Hxy]; simpl; [done|].
  unfold not_after in Hxy. by rewrite Hxy.
Qed.

(** elements that the order does not tell apart keep their places *)
Lemma insert_by_filter_class (p : A -> bool) x l :
  (forall a b, p a = true -> p b = true -> lt a b = false) ->
  List.filter p (insert_by lt x l) = List.filter p (x :: l).
Proof.
  intros Hclass. induction l as [|y l IH]; [done|].
  cbn [insert_by]. destruct (lt y x) eqn:Hyx; [|done].
  cbn [List.filter]. rewrite IH. cbn [List.filter].
  destruct (p x) eqn:Hx, (p y) eqn:Hy; try done.
  rewrite (Hclass y x Hy Hx) in Hyx. done.
Qed.

Lemma stable_sort_filter_class (p : A -> bool) l :
  (forall a b, p a = true -> p b = true -> lt a b = false) ->
  List.filter p (stable_sort lt l) = List.filter p l.
Proof.
  intros Hclass. induction l as [|x l IH]; [done|].
  unfold stable_sort in *. cbn [foldr]. rewrite insert_by_filter_class by done.
  cbn [List.filter]. by rewrite IH.
Qed.

Hypothesis not_after_trans :
  forall a b c, not_after lt a b -> not_after lt b c -> not_after lt a c.

Lemma insert_by_first x l :
  Forall (not_after lt x) l -> insert_by lt x l = x :: l.
Proof.
  intros Hall. destruct l as [|y l]; [done|]. simpl.
  apply Forall_cons in Hall as [Hxy _]. unfold not_after in Hxy. by rewrite Hxy.
Qed.

Lemma filter_insert_by (p : A -> bool) x l :
  StronglySorted (not_after lt) l ->
  List.filter p (insert_by lt x l)
  = if p x then insert_by lt x (List.filter p l) else List.filter p l.
Proof.
  induction 1 as [|y l Hs IH Hall]; simpl.
  - by destruct (p x).
  - destruct (lt y x) eqn:Hyx; simpl.
    + rewrite IH. destruct (p y), (p x); simpl; try done. by rewrite Hyx.
    + destruct (p x) eqn:Hx; [|done].
      change (x :: List.filter p (y :: l) = insert_by lt x (List.filter p (y :: l))).
      symmetry. apply insert_by_first.
      apply Forall_forall. intros z Hz%list_elem_of_In%filter_In.
      destruct Hz as [[<-|Hz] _]; [done|].
      rewrite Forall_forall in Hall.
      apply (not_after_trans x y z); [done|]. by apply Hall, list_elem_of_In.
Qed.

Hypothesis lt_asym : forall a b, lt a b = true -> lt b a = false.

Lemma stable_sort_strongly_sorted l : StronglySorted (not_after lt) (stable_sort lt l).
Proof.
  apply Sorted_StronglySorted; [exact not_after_trans|].
  by apply stable_sort_sorted.
Qed.

(** filtering commutes with sorting *)
Lemma filter_stable_sort (p : A -> bool) l :
  List.filter p (stable_sort lt l) = stable_sort lt (List.filter p l).
Proof.
  induction l as [|x l IH]; [done|].
  change (stable_sort lt (x :: l)) with (insert_by lt x (stable_sort lt l)).
  rewrite filter_insert_by by apply stable_sort_strongly_sorted.
  rewrite IH. simpl. by destruct (p x).
Qed.

End StableSortMore.

Lemma lex_ltb_trans a b c : lex_ltb a b = true -> lex_ltb b c = true -> lex_ltb a c = true.
Proof.
  revert b c. induction a as [|x a IH]; intros [|y b] [|z c]; simpl; try done.
  intros [Hxy|[->%Nat.eqb_eq Hab]%andb_true_iff]%orb_true_iff
         [Hyz|[->%Nat.eqb_eq Hbc]%andb_true_iff]%orb_true_iff;
    apply orb_true_iff.
  - left. apply Nat.ltb_lt in Hxy, Hyz. apply Nat.ltb_lt. lia.
  - by left.
  - by left.
  - right. rewrite Nat.eqb_refl. simpl. by apply (IH b).
Qed.

Lemma dt_le_trans a b c : dt_le a b -> dt_le b c -> dt_le a c.
Proof.
  unfold dt_le. intros [->|Hab] [->|Hbc]; auto.
  right. by apply (lex_ltb_trans _ (dt_fields b)).
Qed.

Lemma by_date_not_after_trans (a b c : SourceFile) :
  not_after (fun x y => dt_ltb (file_date x) (file_date y)) a b ->
  not_after (fun x y => dt_ltb (file_date x) (file_date y)) b c ->
  not_after (fun x y => dt_ltb (file_date x) (file_date y)) a c.
Proof.
  unfold not_after. rewrite !dt_le_iff. apply dt_le_trans.
Qed.

Lemma catalogued_bounds sd ed obj :
  catalogued sd ed obj
  = match catalogued None None obj with
    | Some f => if in_bounds sd ed f then Some f else None
    | None => None
    end.
Proof.
  unfold catalogued, in_bounds. destruct (endswith _ _); [|done].
  destruct (extract_date_from_filename _) as [d|]; [|done]. simpl.
  by destruct (before_start sd d), (after_end ed d).
Qed.

Lemma omap_catalogued_bounds sd ed objs :
  omap (catalogued sd ed) objs
  = List.filter (in_bounds sd ed) (omap (catalogued None None) objs).
Proof.
  induction objs as [|obj objs IH]; [done|].
  cbn [omap list_omap]. rewrite catalogued_bounds.
  destruct (catalogued None None obj) as [f|]; [|exact IH].
  cbn [List.filter]. destruct (in_bounds sd ed f); by rewrite <- IH.
Qed.

(** X13: date bounds only select: the catalog for given bounds is the
    catalog without bounds, restricted to the files whose date passes both
    bounds, in the same order. *)
Theorem list_csv_files_bounds_filter s3 base_prefix start_date end_date :
  list_csv_files s3 base_prefix start_date end_date
  = List.filter (in_bounds start_date end_date) (list_csv_files s3 base_prefix None None).
Proof.
  destruct (s3_list_ok s3) eqn:Hok.
  - rewrite !(list_csv_files_sort _ _ _ _ Hok), omap_catalogued_bounds.
    symmetry. apply filter_stable_sort.
    + apply by_date_not_after_trans.
    + intros a b. apply dt_ltb_asym.
  - unfold list_csv_files, list_objects_v2. by rewrite Hok.
Qed.

(** X14: files of the same date come in the order of the listing: the
    sort by date never exchanges two of them, so that which of them is
    processed last, and wins on a duplicate key, is fixed by the listing. *)
Theorem list_csv_files_same_date_order s3 base_prefix start_date end_date d :
  s3_list_ok s3 = true ->
  List.filter (dated d) (list_csv_files s3 base_prefix start_date end_date)
  = List.filter (dated d)
      (omap (catalogued start_date end_date) (listing s3 base_prefix)).
Proof.
  intros Hok. rewrite (list_csv_files_sort _ _ _ _ Hok).
  apply stable_sort_filter_class.
  intros a b Ha%bool_decide_eq_true Hb%bool_decide_eq_true.
  rewrite Ha, Hb. apply dt_ltb_irrefl.
Qed.

Lemma list_csv_files_same_date_order_witness :
  List.filter (dated (mk_datetime 2025 10 20 0 0 0 0))
    (list_csv_files sample_store "logs/" None None)
  = [ mk_source_file "logs/a_202510200000_report.csv" (mk_datetime 2025 10 20 0 0 0 0)
        12 (mk_datetime 2025 10 21 1 0 0 0) ].
Proof.
  exact (list_csv_files_same_date_order sample_store "logs/" None None
           (mk_datetime 2025 10 20 0 0 0 0) eq_refl).
Defined.

Lemma extract_date_calendar filename d :
  extract_date_from_filename filename = Returns d ->
  valid_date (year d) (month d) (day d) = true
  /\ hour d = 0 /\ minute d = 0 /\ second d = 0 /\ microsecond d = 0.
Proof.
  rewrite extract_date_of_search.
  destruct (re_search_token filename) as [tok|]; [|done].
  destruct (token_date_valid tok) eqn:Hv; [|done].
  intros [= <-]. done.
Qed.

(** *** Rows and keys *)

Lemma drop_duplicates_last_of_NoDup rows :
  NoDup (map dedup_key rows) -> drop_duplicates_last rows = rows.
Proof.
  induction rows as [|r rows IH]; simpl; [done|].
  intros [Hnot Hnd]%NoDup_cons.
  destruct (existsb (same_key r) rows) eqn:Hdup.
  - apply has_later_duplicate in Hdup as (r' & Hin & Hk).
    exfalso. apply Hnot. rewrite <- Hk. by apply list_elem_of_In, in_map.
  - by rewrite IH.
Qed.

Lemma consolidate_NoDup batches : NoDup (map dedup_key (consolidate batches)).
Proof.
  unfold consolidate, sort_values.
  rewrite (Permutation_map dedup_key (stable_sort_perm record_ltb _)).
  apply drop_duplicates_last_NoDup.
Qed.

(** X16: consolidating a consolidated dataset again changes nothing. *)
Theorem consolidate_idempotent batches :
  consolidate [consolidate batches] = consolidate batches.
Proof.
  unfold consolidate at 1. simpl concat. rewrite app_nil_r.
  rewrite drop_duplicates_last_of_NoDup by apply consolidate_NoDup.
  unfold sort_values. apply stable_sort_of_sorted.
  unfold consolidate, sort_values. apply stable_sort_sorted, record_ltb_asym.
Qed.

Lemma drop_duplicates_last_length rows :
  length (drop_duplicates_last rows) = size (key_set rows).
Proof.
  unfold key_set. induction rows as [|r rows IH]; simpl; [done|].
  destruct (existsb (same_key r) rows) eqn:Hdup.
  - apply has_later_duplicate in Hdup as (r' & Hin & Hk).
    rewrite IH. f_equal.
    assert (dedup_key r ∈ (list_to_set (map dedup_key rows) : gset (cell * cell))) as Hel.
    { apply elem_of_list_to_set. rewrite <- Hk. by apply list_elem_of_In, in_map. }
    symmetry. apply subseteq_union_1_L. by apply singleton_subseteq_l.
  - rewrite size_union, size_singleton; [simpl; by rewrite IH|].
    apply disjoint_singleton_l. rewrite elem_of_list_to_set.
    intros (r' & Hk & Hin)%list_elem_of_In%in_map_iff.
    assert (existsb (same_key r) rows = true) by (apply has_later_duplicate; eauto).
    congruence.
Qed.

Lemma drop_duplicates_last_key rows r :
  In r rows ->
  exists r', In r' (drop_duplicates_last rows) /\ dedup_key r' = dedup_key r.
Proof.
  revert r. induction rows as [|x l IH]; intros r; [done|]. simpl. intros Hin.
  destruct (existsb (same_key x) l) eqn:Hdup.
  - destruct Hin as [->|Hin]; [|by apply IH].
    apply has_later_duplicate in Hdup as (r' & Hin' & Hk').
    destruct (IH _ Hin') as (r'' & ? & ?). exists r''. split; [done|congruence].
  - destruct Hin as [->|Hin]; [exists r; split; [by left|done]|].
    destruct (IH _ Hin) as (r' & ? & ?). exists r'. split; [by right|done].
Qed.

Lemma size_list_to_set_le (ks : list (cell * cell)) :
  size (list_to_set ks : gset (cell * cell)) <= length ks.
Proof.
  induction ks as [|k ks IH]; simpl; [done|].
  pose proof (size_union_alt ({[k]} : gset (cell * cell)) (list_to_set ks)) as Hu.
  rewrite size_singleton in Hu.
  assert (size ((list_to_set ks : gset (cell * cell)) ∖ {[k]}) <= size (list_to_set ks : gset (cell * cell)))
    by (apply subseteq_size, subseteq_difference_l; done).
  lia.
Qed.

(** X17: the consolidated dataset has exactly one row per (UserId, Date)
    key of the input: it has the keys of the input, its length is the
    number of distinct keys, and it is never longer than the input, so that
    the count of removed duplicates is the number of input rows minus the
    number of keys. *)
Theorem consolidate_row_count batches :
  length (consolidate batches) = size (key_set (concat batches))
  /\ key_set (consolidate batches) = key_set (concat batches)
  /\ length (consolidate batches) <= length (concat batches).
Proof.
  assert (length (consolidate batches) = size (key_set (concat batches))) as Hlen.
  { unfold consolidate, sort_values.
    rewrite (Permutation_length (stable_sort_perm record_ltb _)).
    apply drop_duplicates_last_length. }
  split_and!; [done| |].
  - unfold key_set. apply set_eq. intros k. rewrite !elem_of_list_to_set.
    rewrite !list_elem_of_In, !in_map_iff. split.
    + intros (r & Hk & Hin%consolidate_In%drop_duplicates_last_In). eauto.
    + intros (r & Hk & Hin).
      destruct (drop_duplicates_last_key _ _ Hin) as (r' & Hin' & Hk').
      exists r'. split; [congruence|]. by apply consolidate_In.
  - rewrite Hlen. unfold key_set.
    rewrite <- (length_map dedup_key (concat batches)). apply size_list_to_set_le.
Qed.

Example consolidate_row_count_sample :
  length (consolidate [[U1_first; U2_row]; [U1_second]]) = 2.
Proof. reflexivity. Qed.

(** ** [merge_csv.py] and the consolidator *)











(** without the grammar the two differ: [merge_csv.py] checks nothing *)
Example merge_csv_unchecked :
  merge_csv_report_date "a_b_c.csv" = Some "b--"
  /\ extract_date_from_filename "a_b_c.csv" = Raises ValueError
  /\ merge_csv_report_date "report.csv" = None.
Proof. split_and!; reflexivity. Qed.

(** ** Region aggregation: further properties *)

Lemma prefix_spec a k : String.prefix a k = true <-> exists t, k = a +:+ t.
Proof.
  revert k. induction a as [|c a IH]; intros k.
  - split; [|by destruct k]. intros _. by exists k.
  - destruct k as [|c' k]; simpl.
    + split; [done|]. by intros [t Ht].
    + destruct (ascii_dec c c') as [->|Hne].
      * rewrite IH. split; intros [t Ht]; exists t.
        -- rewrite append_cons. by f_equal.
        -- rewrite append_cons in Ht. by injection Ht.
      * split; [done|]. intros [t Ht]. rewrite append_cons in Ht. congruence.
Qed.

Lemma append_assoc a b c : (a +:+ b) +:+ c = a +:+ b +:+ c.
Proof. induction a as [|x a IH]; [done|]. rewrite !append_cons. by f_equal. Qed.

(** two names closed by the separator, one a prefix of the other *)
Lemma closed_prefix sep r1 r2 t1 t2 :
  free_of sep r1 -> free_of sep r2 ->
  r1 +:+ String sep t1 = r2 +:+ String sep t2 -> r1 = r2.
Proof.
  unfold free_of. revert r2. induction r1 as [|c r1 IH]; intros [|c2 r2]; simpl.
  - done.
  - intros _ [Hc _]%andb_true_iff. rewrite append_empty_l, append_cons.
    intros [= <- _]. by rewrite Ascii.eqb_refl in Hc.
  - intros [Hc _]%andb_true_iff _. rewrite append_empty_l, append_cons.
    intros [= -> _]. by rewrite Ascii.eqb_refl in Hc.
  - intros [_ H1]%andb_true_iff [_ H2]%andb_true_iff. rewrite !append_cons.
    intros [= -> Heq]. f_equal. by apply IH.
Qed.

(** X19: regions do not share objects or files: an object key under the
    prefixes of two regions, whose names hold no slash, belongs to one and
    the same region, and two regions with the same temporary file are the
    same region. *)
Theorem regions_are_disjoint self r1 r2 days :
  (forall key,
     free_of "/" r1 -> free_of "/" r2 ->
     String.prefix (get_region_prefix self r1) key = true ->
     String.prefix (get_region_prefix self r2) key = true ->
     r1 = r2)
  /\ (cmd_output (region_cmd self r1 days) = cmd_output (region_cmd self r2 days) ->
      r1 = r2).
Proof.
  split.
  - intros key Hf1 Hf2 [t1 H1]%prefix_spec [t2 H2]%prefix_spec.
    unfold get_region_prefix in H1, H2. rewrite H1 in H2. clear H1.
    rewrite !append_assoc in H2.
    repeat (apply (inj (String.app _)) in H2).
    by apply (closed_prefix "/" r1 r2 t1 t2).
  - simpl. intros H. apply (inj (String.app _)) in H.
    assert (String.length r1 = String.length r2) as Hlen.
    { apply (f_equal String.length) in H. rewrite !length_append in H. simpl in H. lia. }
    by destruct (append_same_length _ _ _ _ H Hlen).
Qed.

Lemma regions_are_disjoint_witness :
  "us-east-1" = "us-east-1".
Proof.
  exact (proj1 (regions_are_disjoint sample_tracker "us-east-1" "us-east-1" None)
           "daily-report/AWSLogs/123456789012/QDeveloperLogs/by_user_analytic/us-east-1/a.csv"
           eq_refl eq_refl eq_refl eq_refl).
Defined.

(** a region name with a slash reaches into another region *)
Example region_prefix_with_slash :
  String.prefix (get_region_prefix sample_tracker "us-east-1")
                (get_region_prefix sample_tracker "us-east-1/x") = true.
Proof. reflexivity. Qed.

Lemma concat_frames_length self host days regions :
  length (concat (omap (region_frame self host days) regions))
  = sum_list_with (region_rows self host days) regions.
Proof.
  induction regions as [|r regions IH]; [done|].
  cbn [omap list_omap sum_list_with]. unfold region_rows at 1.
  destruct (region_frame self host days r) as [frame|]; [|exact IH].
  cbn [concat]. by rewrite length_app, IH.
Qed.

Lemma region_frame_nonempty self host days region frame :
  region_frame self host days region = Some frame -> frame <> [].
Proof.
  unfold region_frame.
  destruct (dict_get SUPPORTED_REGIONS region); [|done].
  destruct (subprocess_run host _) as [|rc [| |[|r rows]]]; try done.
  destruct (rc =? 0)%Z; [|done]. by intros [= <-].
Qed.

(** X20: the run reports success exactly when it has written an artifact;
    the artifact is never empty, the regions are not deduplicated against
    each other (its row count is the sum of the rows the regions yield), and
    the last message shows that count. *)
Theorem consolidate_region_data_artifact self host regions days :
  let report := consolidate_region_data self host regions days in
  (succeeded report = true <-> is_Some (artifact report))
  /\ (forall rows,
        artifact report = Some rows ->
        rows <> []
        /\ length rows = sum_list_with (region_rows self host days) regions
        /\ exists msgs, messages report = msgs ++ [Integrated (length rows)]).
Proof.
  cbv zeta. unfold consolidate_region_data.
  destruct (forallb (fun r => negb (region_raises self host days r)) regions) eqn:Hall.
  - assert (forall r, In r regions -> region_raises self host days r = false) as Hclean.
    { intros r Hin. rewrite forallb_forall in Hall. apply Hall in Hin.
      by apply negb_true_iff. }
    destruct (region_loop_clean self host days regions [] Hclean) as (msgs & -> & _).
    pose proof (concat_frames_length self host days regions) as Hlen.
    destruct (omap (region_frame self host days) regions) as [|frame frames] eqn:Hframes.
    + simpl. split; [split; [done|by intros [? ?]]|done].
    + assert (frame <> []) as Hne.
      { assert (frame ∈ omap (region_frame self host days) regions) as Hel
          by (rewrite Hframes; left).
        apply list_elem_of_omap in Hel as (r & _ & Hf).
        by apply region_frame_nonempty in Hf. }
      cbn [app]. destruct (to_csv_ok host); simpl.
      * split; [split; eauto|]. intros rows [= <-]. split_and!.
        -- destruct frame; [done|]. done.
        -- done.
        -- by exists msgs.
      * split; [split; [done|by intros [? ?]]|done].
  - apply forallb_false_exists in Hall as (r & Hin & Hr%negb_false_iff).
    destruct (region_loop_raises self host days regions [])
      as (e & msgs & ->); [eauto|].
    simpl. split; [split; [done|by intros [? ?]]|done].
Qed.

Lemma consolidate_region_data_artifact_witness :
  let report :=
    consolidate_region_data sample_tracker host_one_empty ["us-east-1"; "us-west-2"] None in
  length [mk_tagged U2_row "us-east-1" "US East (N. Virginia)"]
  = sum_list_with (region_rows sample_tracker host_one_empty None) ["us-east-1"; "us-west-2"].
Proof.
  exact (proj1 (proj2 (proj2 (consolidate_region_data_artifact sample_tracker host_one_empty
                  ["us-east-1"; "us-west-2"] None) _ eq_refl))).
Defined.

(** ** Report dates as text *)

















(** ** From the catalog to the dataset *)

Lemma list_csv_files_In s3 base_prefix sd ed f :
  In f (list_csv_files s3 base_prefix sd ed) ->
  extract_date_from_filename (basename (file_key f)) = Returns (file_date f)
  /\ within_bounds sd ed (file_date f).
Proof.
  destruct (s3_list_ok s3) eqn:Hok.
  - rewrite (list_csv_files_sort _ _ _ _ Hok), stable_sort_In.
    intros (obj & _ & Hc)%list_elem_of_In%list_elem_of_omap.
    by apply catalogued_spec in Hc as (d & _ & Hd & Hb & ->).
  - unfold list_csv_files, list_objects_v2. rewrite Hok. intros [].
Qed.

(** X15: a date that [extract_date_from_filename] returns is a date of the
    calendar (year 1 to 9999, month 1 to 12, a day the month has) at
    midnight; so is the date of every file of the catalog, which is the date
    its file name gives. *)
Theorem extract_date_is_calendar_date :
  (forall filename d,
     extract_date_from_filename filename = Returns d ->
     valid_date (year d) (month d) (day d) = true
     /\ hour d = 0 /\ minute d = 0 /\ second d = 0 /\ microsecond d = 0)
  /\ (forall s3 base_prefix start_date end_date f,
        In f (list_csv_files s3 base_prefix start_date end_date) ->
        extract_date_from_filename (basename (file_key f)) = Returns (file_date f)
        /\ valid_date (year (file_date f)) (month (file_date f)) (day (file_date f)) = true
        /\ dt_fields (file_date f)
           = [year (file_date f); month (file_date f); day (file_date f); 0; 0; 0; 0]).
Proof.
  split; [apply extract_date_calendar|].
  intros s3 base_prefix start_date end_date f [Hd _]%list_csv_files_In.
  split; [done|].
  apply extract_date_calendar in Hd as (Hv & Hh & Hm & Hs & Hu).
  split; [done|]. unfold dt_fields. by rewrite Hh, Hm, Hs, Hu.
Qed.

Lemma extract_date_is_calendar_date_witness :
  valid_date 2024 2 29 = true.
Proof.
  exact (proj1 (proj1 extract_date_is_calendar_date "a_202402290000_report.csv"
                  (mk_datetime 2024 2 29 0 0 0 0) eq_refl)).
Defined.

Lemma download_all_In read_csv s3 files r :
  In r (concat (download_all read_csv s3 files)) ->
  exists f, In f files /\ In r (download_and_parse_csv read_csv s3 (file_key f)).
Proof.
  intros (batch & Hb & Hr)%in_concat. unfold download_all in Hb.
  apply filter_In in Hb as [Hb _]. apply in_map_iff in Hb as (f & <- & Hf). eauto.
Qed.

Lemma download_and_parse_csv_ReportDate read_csv s3 key r :
  In r (download_and_parse_csv read_csv s3 key) ->
  exists d, extract_date_from_filename (basename key) = Returns d
            /\ ReportDate r = strftime_Ymd d.
Proof.
  unfold download_and_parse_csv.
  destruct (get_object s3 key); [|done]. destruct (read_csv _) as [df|]; [|done].
  destruct (extract_date_from_filename _) as [d|]; [|done].
  intros (row & <- & _)%in_map_iff. by exists d.
Qed.

(** X22: every row of the dataset that [consolidate_reports] returns
    carries as [ReportDate] the date of a file of the catalog, which lies
    within the date bounds given. *)
Theorem consolidate_reports_dates read_csv s3 base_prefix start_date end_date r :
  In r (consolidate_reports read_csv s3 base_prefix start_date end_date) ->
  exists f,
    In f (list_csv_files s3 base_prefix start_date end_date)
    /\ ReportDate r = strftime_Ymd (file_date f)
    /\ within_bounds start_date end_date (file_date f).
Proof.
  rewrite consolidate_reports_consolidate.
  intros Hin%consolidate_In%drop_duplicates_last_In.
  apply download_all_In in Hin as (f & Hf & Hr).
  apply download_and_parse_csv_ReportDate in Hr as (d & Hd & Hrd).
  destruct (list_csv_files_In _ _ _ _ _ Hf) as [Hd' Hb].
  exists f. split_and!; [done| |done]. congruence.
Qed.

Lemma consolidate_reports_dates_witness :
  exists f,
    In f (list_csv_files sample_store_bodies "logs/" None None)
    /\ "2025-10-21" = strftime_Ymd (file_date f).
Proof.
  destruct (consolidate_reports_dates sample_read_csv sample_store_bodies "logs/" None None
              (mk_record (Some "U1") (Some "2025-10-20")
                 [("Chat_MessagesSent", Some "9")] "2025-10-21"))
    as (f & Hf & Hd & _).
  - rewrite consolidate_reports_sample. by left.
  - exists f. split; [exact Hf|exact Hd].
Defined.

Lemma drop_duplicates_last_nil rows : drop_duplicates_last rows = [] -> rows = [].
Proof.
  destruct rows as [|r rows]; [done|]. intros Hnil. exfalso.
  destruct (drop_duplicates_last_key (r :: rows) r) as (r' & Hin & _); [by left|].
  by rewrite Hnil in Hin.
Qed.

(** X23: [consolidate_reports] returns the empty dataset exactly when no
    file of the catalog gives a row: no file at all, or every file failing
    or without rows. *)
Theorem consolidate_reports_empty read_csv s3 base_prefix start_date end_date :
  consolidate_reports read_csv s3 base_prefix start_date end_date = []
  <-> forall f, In f (list_csv_files s3 base_prefix start_date end_date) ->
        download_and_parse_csv read_csv s3 (file_key f) = [].
Proof.
  rewrite consolidate_reports_consolidate. split.
  - intros Hnil f Hf.
    destruct (download_and_parse_csv read_csv s3 (file_key f)) as [|r batch] eqn:Hb;
      [done|].
    assert (In r (concat (download_all read_csv s3
                            (list_csv_files s3 base_prefix start_date end_date)))) as Hin.
    { apply in_concat. exists (r :: batch). split; [|by left].
      unfold download_all. apply filter_In. split; [|done].
      apply in_map_iff. exists f. by split. }
    unfold consolidate, sort_values in Hnil.
    apply (f_equal (@length _)) in Hnil.
    rewrite (Permutation_length (stable_sort_perm record_ltb _)) in Hnil.
    apply length_zero_iff_nil, drop_duplicates_last_nil in Hnil.
    by rewrite Hnil in Hin.
  - intros Hall.
    assert (download_all read_csv s3 (list_csv_files s3 base_prefix start_date end_date)
            = []) as ->; [|done].
    unfold download_all.
    induction (list_csv_files s3 base_prefix start_date end_date) as [|f files IH];
      [done|].
    simpl. rewrite (Hall f) by (by left). simpl. apply IH.
    intros; apply Hall; by right.
Qed.

(** ** One lookup, one record *)

(** X24: a lookup touches the record of no other user: whatever
    [get_user_info] does for an identifier, the cache holds for every other
    identifier what it held before; a record that is replaced is replaced in
    place, the cache growing by one entry at most. *)
Theorem get_user_info_frame env user_id self :
  let self' := (get_user_info env user_id self).1.2 in
  (forall other, other <> user_id ->
     user_cache self' !! other = user_cache self !! other)
  /\ (is_Some (user_cache self !! user_id) -> size (user_cache self') = size (user_cache self))
  /\ size (user_cache self') <= S (size (user_cache self)).
Proof.
  cbv zeta.
  destruct (get_user_info_cases env user_id self)
    as [(e & _ & ->)|[(c & _ & ->)|[(resp & _ & _ & ->)|(_ & _ & calls & -> & _)]]];
    simpl; try (split_and!; [done|done|lia]).
  rewrite save_cache_user_cache. simpl.
  set (r := directory_info user_id resp (env_stamp env)).
  split_and!.
  - intros other Hne. by apply lookup_insert_ne.
  - intros Hold. by apply map_size_insert_Some.
  - rewrite map_size_insert. destruct (user_cache self !! user_id); simpl; lia.
Qed.

(** ** A step that raises *)

(** X25: when a step raises for some region of the list (a name that is
    not supported, a child process that cannot be run to its end, a
    temporary file that cannot be read), the run returns failure, writes no
    artifact and ends with the error message, whatever the other regions
    yield. *)
Theorem consolidate_region_data_raises self host regions days :
  (exists r, In r regions /\ region_raises self host days r = true) ->
  let report := consolidate_region_data self host regions days in
  succeeded report = false
  /\ artifact report = None
  /\ exists msgs, messages report = msgs ++ [IntegrationError].
Proof.
  intros Hr. cbv zeta. unfold consolidate_region_data.
  destruct (region_loop_raises self host days regions [] Hr) as (e & msgs & ->).
  simpl. split_and!; eauto.
Qed.

Lemma consolidate_region_data_raises_witness :
  succeeded (consolidate_region_data sample_tracker host_one_empty ["us-east-1"; "mars-1"] None)
  = false.
Proof.
  refine (proj1 (consolidate_region_data_raises sample_tracker host_one_empty
                   ["us-east-1"; "mars-1"] None _)).
  exists "mars-1". split; [right; by left|reflexivity].
Defined.

(** ** Instances of the properties above *)



Lemma search_user_by_username_requests_witness :
  exists rest,
    (search_user_by_username (env_at sample_directory 1000) "bedrock_user1" sample_mapper).2
    = ListUsers "d-9067f33d3d" (Some "bedrock_user1") None :: rest
    /\ length rest <= 1.
Proof.
  apply (proj1 (proj2 (search_user_by_username_requests (env_at sample_directory 1000)
                         "bedrock_user1" sample_mapper))).
  reflexivity.
Defined.

Lemma get_user_info_frame_witness :
  user_cache (get_user_info (env_at sample_directory 1000) sample_user_id sample_mapper).1.2
    !! "someone-else"
  = user_cache sample_mapper !! "someone-else".
Proof.
  apply (proj1 (get_user_info_frame (env_at sample_directory 1000) sample_user_id
                  sample_mapper)).
  discriminate.
Defined.

Lemma consolidate_reports_empty_witness :
  consolidate_reports sample_read_csv (mk_s3 (s3_objects sample_store) true (fun _ => None))
    "logs/" None None = [].
Proof.
  apply (proj2 (consolidate_reports_empty sample_read_csv
                  (mk_s3 (s3_objects sample_store) true (fun _ => None)) "logs/" None None)).
  intros f _. reflexivity.
Defined.
